(** * nornir-nautobot: the default dispatcher
      ([nornir_nautobot/plugins/tasks/dispatcher/default.py])

    A shallow embedding of the line sanitizer ([_remove_lines],
    [_substitute_lines]) and of the driver operations ([get_config],
    [check_connectivity], [compliance_config], [generate_config]) of
    [NautobotNornirDriver] and [NetmikoNautobotNornirDriver], followed by the
    properties of the specification that were checked against them.

    Python [str] values are [string]s (characters are code points below 256).
    Exceptions are values of [pyexc]; an operation is a computation in a
    writer-and-error monad whose log is the sequence of calls made to the
    collaborators (logger, storage, comparison engine). *)

From Stdlib Require Import String Ascii List Bool Arith Lia DecimalString.
Import ListNotations.
Open Scope list_scope.
Open Scope string_scope.

(* ================================================================== *)
(** * Python [str] methods used by the source *)
(* ================================================================== *)

Module PyStr.

Definition newline : ascii := "010"%char.

(** [str.isspace] on code points below 256: TAB, LF, VT, FF, CR, the four
    separators FS, GS, RS, US, SPACE, NEL and NBSP. *)
Definition isspace (c : ascii) : bool :=
  let n := nat_of_ascii c in
  (((9 <=? n) && (n <=? 13)) || ((28 <=? n) && (n <=? 32))
   || (n =? 133) || (n =? 160))%nat.

(** [s.split("\n")]: always at least one field. *)
Fixpoint split_nl (s : string) : list string :=
  match s with
  | EmptyString => [EmptyString]
  | String c s' =>
      if Ascii.eqb c newline then EmptyString :: split_nl s'
      else match split_nl s' with
           | h :: t => String c h :: t
           | [] => [String c EmptyString]
           end
  end.

(** [s.rstrip()]: trailing white space removed. *)
Fixpoint rstrip (s : string) : string :=
  match s with
  | EmptyString => EmptyString
  | String c s' =>
      match rstrip s' with
      | EmptyString => if isspace c then EmptyString else String c EmptyString
      | t => String c t
      end
  end.

(** [s.replace(old, new)] for a non-empty [old]: the occurrences of [old]
    are found left to right and do not overlap; [skip] counts the characters
    of the occurrence being replaced that are still to be dropped. *)
Fixpoint replace_from (old new : string) (skip : nat) (s : string) : string :=
  match s with
  | EmptyString => EmptyString
  | String c s' =>
      match skip with
      | S k => replace_from old new k s'
      | O =>
          if String.prefix old s
          then new ++ replace_from old new (String.length old - 1) s'
          else String c (replace_from old new 0 s')
      end
  end.

(** [s.replace(old, new)] for the empty [old]: [new] goes before every
    character and at the end. *)
Fixpoint interleave (new : string) (s : string) : string :=
  match s with
  | EmptyString => new
  | String c s' => new ++ String c (interleave new s')
  end.

Definition replace (old new : string) (s : string) : string :=
  match old with
  | EmptyString => interleave new s
  | _ => replace_from old new 0 s
  end.

(** [sub in s]. *)
Fixpoint contains (sub : string) (s : string) : bool :=
  String.prefix sub s
  || match s with
     | EmptyString => false
     | String _ s' => contains sub s'
     end.

(** [os.path.dirname] (posixpath): everything up to the last slash, with the
    trailing slashes of that head removed unless the head is slashes only. *)
Fixpoint all_slashes (s : string) : bool :=
  match s with
  | EmptyString => true
  | String c s' => Ascii.eqb c "/"%char && all_slashes s'
  end.

Fixpoint rstrip_slash (s : string) : string :=
  match s with
  | EmptyString => EmptyString
  | String c s' =>
      match rstrip_slash s' with
      | EmptyString =>
          if Ascii.eqb c "/"%char then EmptyString else String c EmptyString
      | t => String c t
      end
  end.

(** [head_of p] is [p[:p.rfind('/') + 1]]. *)
Fixpoint head_of (p : string) : string :=
  match p with
  | EmptyString => EmptyString
  | String c p' =>
      if contains "/" p' then String c (head_of p')
      else if Ascii.eqb c "/"%char then String c EmptyString
      else EmptyString
  end.

Definition dirname (p : string) : string :=
  let head := head_of p in
  if all_slashes head then head else rstrip_slash head.

End PyStr.

(* ================================================================== *)
(** * The part of Python's [re] the source relies on *)
(* ================================================================== *)

(** Patterns are taken in compiled form.  The matcher is the backtracking
    matcher of [re]: alternatives are tried left to right, repetitions are
    greedy, and the first successful path wins. *)
Module Re.

Inductive charset : Type :=
| CLit (c : ascii)              (* a literal character *)
| CAny                          (* [.]: anything but a newline *)
| CSpace                        (* [\s] *)
| CRange (lo hi : ascii)        (* [lo-hi] inside a class *)
| CNot (cs : charset)           (* [\S] is CNot CSpace; [[^...]] *)
| COr (a b : charset).          (* union of the items of a class *)

Fixpoint charset_mem (cs : charset) (c : ascii) : bool :=
  match cs with
  | CLit d => Ascii.eqb c d
  | CAny => negb (Ascii.eqb c PyStr.newline)
  | CSpace => PyStr.isspace c
  | CRange lo hi =>
      ((nat_of_ascii lo <=? nat_of_ascii c)
       && (nat_of_ascii c <=? nat_of_ascii hi))%nat
  | CNot a => negb (charset_mem a c)
  | COr a b => charset_mem a c || charset_mem b c
  end.

Inductive regex : Type :=
| REps                          (* the empty pattern *)
| RChar (cs : charset)          (* one character *)
| RSeq (a b : regex)            (* ab *)
| RAlt (a b : regex)            (* a|b *)
| RStar (a : regex)             (* a*, greedy *)
| RPlus (a : regex)             (* a+, greedy *)
| ROpt (a : regex)              (* a?, greedy *)
| RGroup (a : regex)            (* (a): a capturing group *)
| RBol                          (* ^ *)
| REol.                         (* $ *)

(** A literal string as a pattern. *)
Fixpoint lit (s : string) : regex :=
  match s with
  | EmptyString => REps
  | String c EmptyString => RChar (CLit c)
  | String c s' => RSeq (RChar (CLit c)) (lit s')
  end.

(** ** Reading a pattern

    [compile] reads the pattern syntax for the constructs above: literal
    characters, [.], [^], [$], [\s], [\S], [\n], [\t], [\r], an escaped
    punctuation character, groups, [|] and the greedy [*], [+], [?].  It
    answers [None] on anything else (classes, counted or lazy repetitions,
    [(?...)], other escapes), which is no statement about [re.compile]. *)

(** [a1 a2 ... an] *)
Fixpoint seq_of (atoms : list regex) : regex :=
  match atoms with
  | [] => REps
  | [a] => a
  | a :: more => RSeq a (seq_of more)
  end.

(** [r1|r2|...|rn] *)
Fixpoint alt_of (first : regex) (others : list regex) : regex :=
  match others with
  | [] => first
  | r :: more => RAlt first (alt_of r more)
  end.

(** The alternatives read so far (last first) and the atoms of the current
    one (last first), closed. *)
Definition finish (alts cur : list regex) : regex :=
  match rev (seq_of (rev cur) :: alts) with
  | [] => REps
  | first :: others => alt_of first others
  end.

Definition is_quantifier (c : ascii) : bool :=
  Ascii.eqb c "*" || Ascii.eqb c "+" || Ascii.eqb c "?" || Ascii.eqb c "{".

Definition is_alnum (c : ascii) : bool :=
  let n := nat_of_ascii c in
  (((48 <=? n) && (n <=? 57)) || ((65 <=? n) && (n <=? 90))
   || ((97 <=? n) && (n <=? 122)) || (128 <=? n))%nat.

(** The quantifier that may follow the atom [a]; a second quantifier
    character (lazy, possessive or counted repetition) is not read. *)
Definition quantified (a : regex) (s : string) : option (regex * string) :=
  match s with
  | String q s' =>
      let one (r : regex) :=
        match s' with
        | String q' _ => if is_quantifier q' then None else Some (r, s')
        | EmptyString => Some (r, s')
        end in
      if Ascii.eqb q "*" then one (RStar a)
      else if Ascii.eqb q "+" then one (RPlus a)
      else if Ascii.eqb q "?" then one (ROpt a)
      else if Ascii.eqb q "{" then None
      else Some (a, s)
  | EmptyString => Some (a, s)
  end.

(** An anchor takes no quantifier here. *)
Definition unquantified (a : regex) (s : string) : option (regex * string) :=
  match s with
  | String q _ => if is_quantifier q then None else Some (a, s)
  | EmptyString => Some (a, s)
  end.

(** The character class or literal written [\c]. *)
Definition escape (c : ascii) : option charset :=
  if Ascii.eqb c "s" then Some CSpace
  else if Ascii.eqb c "S" then Some (CNot CSpace)
  else if Ascii.eqb c "n" then Some (CLit "010")
  else if Ascii.eqb c "t" then Some (CLit "009")
  else if Ascii.eqb c "r" then Some (CLit "013")
  else if is_alnum c then None
  else Some (CLit c).

(** Reads alternatives up to the end of the text or to a closing
    parenthesis, which is left in the text returned. *)
Fixpoint parse (fuel : nat) (s : string) (alts cur : list regex)
  : option (regex * string) :=
  match fuel with
  | O => None
  | S fuel' =>
      match s with
      | EmptyString => Some (finish alts cur, s)
      | String c s' =>
          let continue (a : option (regex * string)) :=
            match a with
            | Some (r, s'') => parse fuel' s'' alts (r :: cur)
            | None => None
            end in
          if Ascii.eqb c ")" then Some (finish alts cur, s)
          else if Ascii.eqb c "|" then
            parse fuel' s' (seq_of (rev cur) :: alts) []
          else if Ascii.eqb c "(" then
            match s' with
            | String "?" _ => None
            | _ =>
                match parse fuel' s' [] [] with
                | Some (inner, String ")" s'') =>
                    continue (quantified (RGroup inner) s'')
                | _ => None
                end
            end
          else if Ascii.eqb c "\" then
            match s' with
            | String e s'' =>
                match escape e with
                | Some cs => continue (quantified (RChar cs) s'')
                | None => None
                end
            | EmptyString => None
            end
          else if Ascii.eqb c "." then continue (quantified (RChar CAny) s')
          else if Ascii.eqb c "^" then continue (unquantified RBol s')
          else if Ascii.eqb c "$" then continue (unquantified REol s')
          else if is_quantifier c || Ascii.eqb c "[" || Ascii.eqb c "]"
                  || Ascii.eqb c "}" then None
          else continue (quantified (RChar (CLit c)) s')
      end
  end.

Definition compile (pattern : string) : option regex :=
  match parse (S (String.length pattern)) pattern [] [] with
  | Some (r, EmptyString) => Some r
  | _ => None
  end.

(** The compiled form of a pattern that [compile] reads. *)
Definition pattern (source : string) : regex :=
  match compile source with
  | Some r => r
  | None => REps
  end.

(** Number of capturing groups, [Pattern.groups]. *)
Fixpoint ngroups (r : regex) : nat :=
  match r with
  | REps | RChar _ | RBol | REol => 0
  | RSeq a b | RAlt a b => ngroups a + ngroups b
  | RStar a | RPlus a | ROpt a => ngroups a
  | RGroup a => S (ngroups a)
  end.

(** The matcher's state: the character before the current position (for
    [^]), the text still to be read, and the groups captured so far
    ([None] for a group that did not take part). *)
Record mstate : Type := MState {
  prev : option ascii;
  rest : string;
  caps : list (option string)
}.

Definition remaining (s : mstate) : nat := String.length (rest s).

Fixpoint set_nth {A} (i : nat) (v : A) (l : list A) : list A :=
  match l, i with
  | [], _ => []
  | _ :: t, O => v :: t
  | h :: t, S j => h :: set_nth j v t
  end.

(** The text read between state [s] and a later state [s']. *)
Definition consumed (s s' : mstate) : string :=
  String.substring 0 (remaining s - remaining s') (rest s).

Definition at_bol (multiline : bool) (s : mstate) : bool :=
  match prev s with
  | None => true
  | Some c => multiline && Ascii.eqb c PyStr.newline
  end.

Definition at_eol (multiline : bool) (s : mstate) : bool :=
  match rest s with
  | EmptyString => true
  | String c EmptyString => Ascii.eqb c PyStr.newline
  | String c _ => multiline && Ascii.eqb c PyStr.newline
  end.

Definition orelse {A} (x y : option A) : option A :=
  match x with Some _ => x | None => y end.

(** The loop of a greedy repetition whose body is matched by [body] and
    which is followed by [k]: one more iteration is tried first, the rest of
    the pattern second.  After an iteration that read nothing the loop is
    left, as [re] does; [n] bounds the number of iterations that read
    something by the length of the text that remains. *)
Fixpoint repeat_loop (body : mstate -> (mstate -> option mstate) -> option mstate)
         (k : mstate -> option mstate) (n : nat) (s0 : mstate)
  : option mstate :=
  match n with
  | O => k s0
  | S n' =>
      orelse
        (body s0
           (fun s1 => if (remaining s1 =? remaining s0)%nat then k s1
                      else repeat_loop body k n' s1))
        (k s0)
  end.

(** [rmatch ml r base s k]: match [r] at [s], then the rest of the pattern
    [k]; [base] is the index of the first group of [r]. *)
Fixpoint rmatch (ml : bool) (r : regex) (base : nat) (s : mstate)
         (k : mstate -> option mstate) {struct r} : option mstate :=
  match r with
  | REps => k s
  | RChar cs =>
      match rest s with
      | String c t =>
          if charset_mem cs c then k (MState (Some c) t (caps s)) else None
      | EmptyString => None
      end
  | RSeq a b =>
      rmatch ml a base s (fun s1 => rmatch ml b (base + ngroups a) s1 k)
  | RAlt a b =>
      orelse (rmatch ml a base s k) (rmatch ml b (base + ngroups a) s k)
  | RStar a => repeat_loop (rmatch ml a base) k (S (remaining s)) s
  | RPlus a =>
      rmatch ml a base s
        (fun s' => repeat_loop (rmatch ml a base) k (S (remaining s')) s')
  | ROpt a => orelse (rmatch ml a base s k) (k s)
  | RGroup a =>
      rmatch ml a (S base) s
        (fun s' =>
           k (MState (prev s') (rest s')
                     (set_nth base (Some (consumed s s')) (caps s'))))
  | RBol => if at_bol ml s then k s else None
  | REol => if at_eol ml s then k s else None
  end.

(** One attempt at one position.  With [must_advance] an empty match is
    refused (and the matcher backtracks into the pattern). *)
Definition match_at (ml : bool) (r : regex) (must_advance : bool)
           (p : option ascii) (text : string) : option mstate :=
  rmatch ml r 0 (MState p text (repeat None (ngroups r)))
    (fun s' =>
       if must_advance && (remaining s' =? String.length text)%nat then None
       else Some s').

(** [search]: the first position, left to right, at which the pattern
    matches; the result is the text skipped before the match and the state
    at its end.  [must_advance] applies to the first position only. *)
Fixpoint search_from (ml : bool) (r : regex) (must_advance : bool)
         (p : option ascii) (text : string) : option (string * mstate) :=
  match match_at ml r must_advance p text with
  | Some s' => Some (EmptyString, s')
  | None =>
      match text with
      | EmptyString => None
      | String c text' =>
          match search_from ml r false (Some c) text' with
          | Some (skipped, s') => Some (String c skipped, s')
          | None => None
          end
      end
  end.

(** The loop of [re.sub]: copy the text before the match, then the
    replacement, and go on from the end of the match; after an empty match
    the next one must advance. *)
Fixpoint sub_loop (fuel : nat) (ml : bool) (r : regex) (repl : string)
         (must_advance : bool) (p : option ascii) (text : string) : string :=
  match fuel with
  | O => text
  | S fuel' =>
      match search_from ml r must_advance p text with
      | None => text
      | Some (skipped, s') =>
          let empty :=
            (remaining s' =? String.length text - String.length skipped)%nat in
          skipped ++ repl
          ++ sub_loop fuel' ml r repl empty (prev s') (rest s')
      end
  end.

(** [re.sub(r, repl, text, flags=re.MULTILINE)] for a replacement without
    escapes (the source only ever passes the empty string). *)
Definition sub (r : regex) (repl : string) (text : string) : string :=
  sub_loop (S (S (2 * String.length text))) true r repl false None text.

(** [re.match(r, line)] followed by [.groups()]: [None] when there is no
    match at position 0. *)
Definition match_groups (r : regex) (line : string)
  : option (list (option string)) :=
  option_map caps (match_at false r false None line).

(** [re.search(r, line)] succeeds. *)
Definition found (ml : bool) (r : regex) (text : string) : bool :=
  match search_from ml r false None text with
  | Some _ => true
  | None => false
  end.

End Re.

(* ================================================================== *)
(** * Exceptions, results and the collaborators *)
(* ================================================================== *)

(** The exception classes the source tests with [isinstance], with their
    base classes in jinja2 and netmiko; [OtherClass] is any class outside
    these two hierarchies. *)
Inductive exc_class : Type :=
| TemplateError
| TemplateRuntimeError
| UndefinedError
| SecurityError
| FilterArgumentError
| TemplateSyntaxError
| TemplateAssertionError
| TemplateNotFound
| TemplatesNotFound
| NetmikoAuthenticationException
| NetmikoTimeoutException
| OtherClass (name : string).

Definition base_class (c : exc_class) : option exc_class :=
  match c with
  | TemplateRuntimeError | TemplateSyntaxError | TemplateNotFound =>
      Some TemplateError
  | UndefinedError | SecurityError | FilterArgumentError =>
      Some TemplateRuntimeError
  | TemplateAssertionError => Some TemplateSyntaxError
  | TemplatesNotFound => Some TemplateNotFound
  | _ => None
  end.

Definition exc_class_eqb (a b : exc_class) : bool :=
  match a, b with
  | TemplateError, TemplateError
  | TemplateRuntimeError, TemplateRuntimeError
  | UndefinedError, UndefinedError
  | SecurityError, SecurityError
  | FilterArgumentError, FilterArgumentError
  | TemplateSyntaxError, TemplateSyntaxError
  | TemplateAssertionError, TemplateAssertionError
  | TemplateNotFound, TemplateNotFound
  | TemplatesNotFound, TemplatesNotFound
  | NetmikoAuthenticationException, NetmikoAuthenticationException
  | NetmikoTimeoutException, NetmikoTimeoutException => true
  | OtherClass x, OtherClass y => String.eqb x y
  | _, _ => false
  end.

(** [issubclass c t], following the chain of base classes (depth at most
    three in the hierarchies above). *)
Fixpoint issubclass_upto (depth : nat) (c t : exc_class) : bool :=
  exc_class_eqb c t
  || match depth, base_class c with
     | S d, Some b => issubclass_upto d b t
     | _, _ => false
     end.

(** An exception object: its class and [str()] of it. *)
Record exception : Type := Exc {
  exc_type : exc_class;
  exc_str : string
}.

Definition isinstance (e : exception) (t : exc_class) : bool :=
  issubclass_upto 3 (exc_type e) t.

(** What can leave a function of the source. *)
Inductive pyexc : Type :=
| NornirNautobotException (args : option string)
| NornirSubTaskError (inner : exception)   (* [exc.result.exception] *)
| IndexError
| TypeError
| AttributeError
| Uncaught (e : exception).                (* any other exception *)

Inductive res (A : Type) : Type :=
| Ok (a : A)
| Raise (e : pyexc).
Arguments Ok {A} a.
Arguments Raise {A} e.

(** The first result of the [MultiResult] that [task.run] returns. *)
Record sub_result (P : Type) : Type := SubResult {
  failed : bool;
  exception_str : string;     (* [str(result.exception)] *)
  result : P
}.
Arguments SubResult {P}.
Arguments failed {P}.
Arguments exception_str {P}.
Arguments result {P}.

(** The inventory host, read only. *)
Record Host : Type := MkHost {
  name : string;
  hostname : string;
  platform : option string;
  username : option string;
  password : option string
}.

(** Calls made to the collaborators, in the order they happen. *)
Inductive event : Type :=
| log_debug (msg : string)
| log_failure (obj : string) (msg : string)
| run_napalm_get
| run_netmiko_send_command (command_string : string)
| run_template_file (template path : string)
| make_folder (path : string)
| open_w (path : string)
| write (path text : string)
| compliance (features backup_file intended_file platform : string).

(** What the collaborators answer.  [task.run] raises [NornirSubTaskError]
    around the exception of the sub-task, or lets another exception through,
    or returns; the storage calls return [Some e] when they raise [e]. *)
Inductive run_exc : Type :=
| SubTaskError (inner : exception)
| OtherExc (e : exception).

Record collaborators : Type := MkCollaborators {
  is_ip : string -> bool;
  hostname_resolves : string -> bool;
  gethostbyname : string -> exception + string;
  test_tcp_port : string -> nat -> bool;
  path_exists : string -> bool;
  napalm_get : Host -> run_exc + sub_result (option (option string));
  netmiko_send_command : Host -> string -> run_exc + sub_result string;
  template_file : Host -> string -> string -> run_exc + sub_result string;
  compliance_engine : string -> string -> string -> string -> exception + string;
  make_folder_raises : string -> option exception;
  open_raises : string -> option exception
}.

(** What an operation hands back: a fresh [Result] (not failed) or the
    failed result of the sub-task, as it is. *)
Inductive result_value : Type :=
| NoPayload
| Config (running_config : string)        (* {"config": ...} *)
| FeatureData (feature_data : string).    (* {"feature_data": ...} *)

Inductive Result : Type :=
| MkResult (host : string) (value : result_value)
| FailedResult (exception_text : string).

(* ================================================================== *)
(** * Computations: a log of events and a result or an exception *)
(* ================================================================== *)

Definition M (A : Type) : Type := (list event * res A)%type.

Definition ret {A} (a : A) : M A := ([], Ok a).
Definition raise {A} (e : pyexc) : M A := ([], Raise e).
Definition emit (e : event) : M unit := ([e], Ok tt).
Definition lift {A} (r : res A) : M A := ([], r).

Definition bind {A B} (m : M A) (f : A -> M B) : M B :=
  match m with
  | (t, Ok a) => let (t', r) := f a in ((t ++ t')%list, r)
  | (t, Raise e) => (t, Raise e)
  end.

Notation "x <- m ;; k" := (bind m (fun x => k))
  (at level 61, m at next level, right associativity).
Notation "m ;; k" := (bind m (fun _ => k))
  (at level 61, right associativity).

(** [if c: body] where [body] ends by raising or falls through. *)
Definition when (c : bool) (body : M unit) : M unit :=
  if c then body else ret tt.

Definition trace {A} (m : M A) : list event := fst m.
Definition outcome {A} (m : M A) : res A := snd m.

(** Truth value of an optional string: [None] and the empty string are
    false. *)
Definition truthy (s : option string) : bool :=
  match s with
  | None | Some EmptyString => false
  | Some _ => true
  end.

Definition nonempty {A} (l : list A) : bool :=
  match l with [] => false | _ => true end.

(** [str(x)] of an optional string, as an f-string prints it. *)
Definition str_of (s : option string) : string :=
  match s with Some x => x | None => "None" end.

Definition str_of_nat (n : nat) : string :=
  DecimalString.NilEmpty.string_of_uint (Nat.to_uint n).

(* ================================================================== *)
(** * The line sanitizer *)
(* ================================================================== *)

(** [_remove_lines(config, remove_lines)]: every pattern in turn is
    substituted by the empty string in the result of the one before. *)
Fixpoint _remove_lines (config : string) (remove_lines : list Re.regex)
  : string :=
  match remove_lines with
  | [] => config
  | removal :: more => _remove_lines (Re.sub removal EmptyString config) more
  end.

(** An item of [substitute_lines]. *)
Record substitution : Type := MkSubstitution {
  regex_search : Re.regex;
  regex_replacement : string
}.

(** The body of the inner loop up to the append: when the line matches at
    position 0, every occurrence of the text of the first group is replaced.
    [groups()[0]] raises [IndexError] without a group, and [replace] raises
    [TypeError] on the [None] of a group that took no part. *)
Definition substitute_item (line : string) (item : substitution)
  : res string :=
  match Re.match_groups (regex_search item) line with
  | None => Ok line
  | Some groups =>
      match groups with
      | [] => Raise IndexError
      | None :: _ => Raise TypeError
      | Some g :: _ =>
          Ok (PyStr.replace g (regex_replacement item) line)
      end
  end.

Definition NL : string := String PyStr.newline EmptyString.

(** The inner loop, [for item in substitute_lines], on the pair
    [(line, new_config)]: the append is part of the body of this loop. *)
Fixpoint substitute_items (items : list substitution)
         (line new_config : string) : res string :=
  match items with
  | [] => Ok new_config
  | item :: more =>
      match substitute_item line item with
      | Raise e => Raise e
      | Ok line' =>
          substitute_items more line' (new_config ++ PyStr.rstrip line' ++ NL)
      end
  end.

(** The outer loop, [for line in config.split("\n")]. *)
Fixpoint substitute_each (lines : list string) (items : list substitution)
         (new_config : string) : res string :=
  match lines with
  | [] => Ok new_config
  | line :: more =>
      match substitute_items items line new_config with
      | Raise e => Raise e
      | Ok new_config' => substitute_each more items new_config'
      end
  end.

Definition _substitute_lines (config : string)
           (substitute_lines : list substitution) : res string :=
  if nonempty substitute_lines
  then substitute_each (PyStr.split_nl config) substitute_lines EmptyString
  else Ok config.

(* ================================================================== *)
(** * The drivers *)
(* ================================================================== *)

Definition RUN_COMMAND_MAPPING : list (string * string) :=
  [ ("default", "show run");
    ("cisco_nxos", "show run");
    ("cisco_ios", "show run");
    ("cisco_xr", "show run");
    ("juniper_junos", "show configuration | display set");
    ("arista_eos", "show run") ].

(** [d.get(key, default)]; a key that is [None] is in no entry. *)
Fixpoint dict_get (d : list (string * string)) (key : option string)
         (default : string) : string :=
  match d, key with
  | (k, v) :: d', Some key' =>
      if String.eqb k key' then v else dict_get d' key default
  | _, _ => default
  end.

(** [d[key]] for a key that the table holds (otherwise [KeyError], which
    cannot happen with the constant table and the key "default"). *)
Definition dict_item (d : list (string * string)) (key : string) : string :=
  dict_get d (Some key) EmptyString.

(** Storage calls: the event, then the exception if the call raises. *)
Definition fails (e : option exception) : M unit :=
  match e with
  | Some x => raise (Uncaught x)
  | None => ret tt
  end.

Definition do_make_folder (E : collaborators) (path : string) : M unit :=
  emit (make_folder path) ;; fails (make_folder_raises E path).

Definition do_open_w (E : collaborators) (path : string) : M unit :=
  emit (open_w path) ;; fails (open_raises E path).

(** The tail shared by the three writers: [make_folder(os.path.dirname(f))],
    [open(f, "w")], [write(text)].  Writing [None] raises [TypeError] once
    the file is open. *)
Definition save (E : collaborators) (file : string) (text : option string)
  : M string :=
  do_make_folder E (PyStr.dirname file) ;;
  do_open_w E file ;;
  match text with
  | Some t => emit (write file t) ;; ret t
  | None => raise TypeError
  end.

(** The two sanitizing steps of [get_config] on a configuration that may be
    [None] (napalm: no "config" or no "running" key): [re.sub] raises
    [TypeError] on [None], and [None.split] raises [AttributeError]. *)
Definition sanitize (running_config : option string)
           (remove_lines : list Re.regex)
           (substitute_lines : list substitution) : M (option string) :=
  running_config <-
    (if nonempty remove_lines then
       emit (log_debug
         "Removing lines from configuration based on `remove_lines` definition") ;;
       match running_config with
       | Some c => ret (Some (_remove_lines c remove_lines))
       | None => raise TypeError
       end
     else ret running_config) ;;
  (if nonempty substitute_lines then
     emit (log_debug
       "Substitute lines from configuration based on `substitute_lines` definition") ;;
     match running_config with
     | Some c => c' <- lift (_substitute_lines c substitute_lines) ;; ret (Some c')
     | None => raise AttributeError
     end
   else ret running_config).

Module NautobotNornirDriver.

Definition get_config (E : collaborators) (task : Host) (obj : string)
           (backup_file : string) (remove_lines : list Re.regex)
           (substitute_lines : list substitution) : M Result :=
  emit (log_debug ("Executing get_config for " ++ name task ++ " on "
                   ++ str_of (platform task))) ;;
  emit run_napalm_get ;;
  match napalm_get E task with
  | inl (SubTaskError exc) =>
      emit (log_failure obj
              ("Failed with a unknown issue. `" ++ exc_str exc ++ "`")) ;;
      raise (NornirNautobotException None)
  | inl (OtherExc e) => raise (Uncaught e)
  | inr result0 =>
      if failed result0 then
        emit (log_failure obj
                ("Failed with a unknown issue. `" ++ exception_str result0
                 ++ "`")) ;;
        ret (FailedResult (exception_str result0))
      else
        let running_config :=
          match result result0 with
          | Some (Some running) => Some running
          | _ => None
          end in
        running_config <- sanitize running_config remove_lines substitute_lines ;;
        written <- save E backup_file running_config ;;
        ret (MkResult (name task) (Config written))
  end.

Definition check_connectivity (E : collaborators) (task : Host) (obj : string)
  : M Result :=
  ip_addr <-
    (if is_ip E (hostname task) then ret (hostname task)
     else
       when (negb (hostname_resolves E (hostname task)))
         (emit (log_failure obj "not an IP or resolvable.") ;;
          raise (NornirNautobotException (Some "not an IP or resolvable."))) ;;
       match gethostbyname E (hostname task) with
       | inr ip => ret ip
       | inl e => raise (Uncaught e)
       end) ;;
  let port := 22 in
  let msg := "Attempting to connect to IP: " ++ ip_addr ++ " and port: "
             ++ str_of_nat port ++ " failed." in
  when (negb (test_tcp_port E ip_addr port))
    (emit (log_failure obj msg) ;;
     raise (NornirNautobotException (Some msg))) ;;
  when (negb (truthy (username task)))
    (emit (log_failure obj "There was no username defined, preemptively failed.") ;;
     raise (NornirNautobotException
              (Some "There was no username defined, preemptively failed."))) ;;
  when (negb (truthy (password task)))
    (emit (log_failure obj "There was no password defined, preemptively failed.") ;;
     raise (NornirNautobotException
              (Some "There was no password defined, preemptively failed."))) ;;
  ret (MkResult (name task) NoPayload).

Definition compliance_config (E : collaborators) (task : Host) (obj : string)
           (features backup_file intended_file platform : string) : M Result :=
  when (negb (path_exists E backup_file))
    (emit (log_failure obj
             ("Backup file Not Found at location: `" ++ backup_file ++ "`")) ;;
     raise (NornirNautobotException None)) ;;
  when (negb (path_exists E intended_file))
    (emit (log_failure obj
             ("Intended config file NOT Found at location: `" ++ intended_file
              ++ "`")) ;;
     raise (NornirNautobotException None)) ;;
  emit (compliance features backup_file intended_file platform) ;;
  match compliance_engine E features backup_file intended_file platform with
  | inl error =>
      emit (log_failure obj ("UNKNOWN Failure of: " ++ exc_str error)) ;;
      raise (NornirNautobotException None)
  | inr feature_data => ret (MkResult (name task) (FeatureData feature_data))
  end.

Definition generate_config (E : collaborators) (task : Host) (obj : string)
           (jinja_template jinja_root_path output_file_location : string)
  : M Result :=
  emit (run_template_file jinja_template jinja_root_path) ;;
  match template_file E task jinja_template jinja_root_path with
  | inl (SubTaskError exc) =>
      if isinstance exc UndefinedError then
        emit (log_failure obj
                ("There was a jinja2.exceptions.UndefinedError error: ``"
                 ++ exc_str exc ++ "``")) ;;
        raise (NornirNautobotException None)
      else if isinstance exc TemplateSyntaxError then
        emit (log_failure obj
                ("There was a jinja2.TemplateSyntaxError error: ``"
                 ++ exc_str exc ++ "``")) ;;
        raise (NornirNautobotException None)
      else if isinstance exc TemplateNotFound then
        emit (log_failure obj
                ("There was an issue finding the template and a jinja2.TemplateNotFound error was raised: ``"
                 ++ exc_str exc ++ "``")) ;;
        raise (NornirNautobotException None)
      else if isinstance exc TemplateError then
        emit (log_failure obj
                ("There was an issue general Jinja error: ``"
                 ++ exc_str exc ++ "``")) ;;
        raise (NornirNautobotException None)
      else raise (NornirSubTaskError exc)
  | inl (OtherExc e) => raise (Uncaught e)
  | inr result0 =>
      let filled_template := result result0 in
      written <- save E output_file_location (Some filled_template) ;;
      ret (MkResult (name task) (Config written))
  end.

End NautobotNornirDriver.

Module NetmikoNautobotNornirDriver.

Definition INVALID_INPUT : string := "ERROR: % Invalid input detected at".

Definition get_config (E : collaborators) (task : Host) (obj : string)
           (backup_file : string) (remove_lines : list Re.regex)
           (substitute_lines : list substitution) : M Result :=
  emit (log_debug ("Executing get_config for " ++ name task ++ " on "
                   ++ str_of (platform task))) ;;
  let command :=
    dict_get RUN_COMMAND_MAPPING (platform task)
             (dict_item RUN_COMMAND_MAPPING "default") in
  emit (run_netmiko_send_command command) ;;
  match netmiko_send_command E task command with
  | inl (SubTaskError exc) =>
      if isinstance exc NetmikoAuthenticationException then
        emit (log_failure obj
                ("Failed with an authentication issue: `" ++ exc_str exc ++ "`")) ;;
        raise (NornirNautobotException None)
      else if isinstance exc NetmikoTimeoutException then
        emit (log_failure obj
                ("Failed with a timeout issue. `" ++ exc_str exc ++ "`")) ;;
        raise (NornirNautobotException None)
      else
        emit (log_failure obj
                ("Failed with an unknown issue. `" ++ exc_str exc ++ "`")) ;;
        raise (NornirNautobotException None)
  | inl (OtherExc e) => raise (Uncaught e)
  | inr result0 =>
      if failed result0 then ret (FailedResult (exception_str result0))
      else
        let running_config := result result0 in
        when (PyStr.contains INVALID_INPUT running_config)
          (emit (log_failure obj
                   "Discovered `ERROR: % Invalid input detected at` in the output") ;;
           raise (NornirNautobotException None)) ;;
        running_config <-
          sanitize (Some running_config) remove_lines substitute_lines ;;
        written <- save E backup_file running_config ;;
        ret (MkResult (name task) (Config written))
  end.

(** The other three operations are inherited. *)
Definition check_connectivity := NautobotNornirDriver.check_connectivity.
Definition compliance_config := NautobotNornirDriver.compliance_config.
Definition generate_config := NautobotNornirDriver.generate_config.

End NetmikoNautobotNornirDriver.

(* ================================================================== *)
(** * The operations as one family, and what is observed of a run *)
(* ================================================================== *)

Inductive driver : Type := Napalm | Netmiko.

Inductive operation : Type :=
| GetConfig (d : driver) (task : Host) (obj : string) (backup_file : string)
            (remove_lines : list Re.regex)
            (substitute_lines : list substitution)
| CheckConnectivity (d : driver) (task : Host) (obj : string)
| ComplianceConfig (d : driver) (task : Host) (obj : string)
                   (features backup_file intended_file platform : string)
| GenerateConfig (d : driver) (task : Host) (obj : string)
                 (jinja_template jinja_root_path output_file_location : string).

Definition get_config_of (d : driver) :=
  match d with
  | Napalm => NautobotNornirDriver.get_config
  | Netmiko => NetmikoNautobotNornirDriver.get_config
  end.

Definition run (E : collaborators) (o : operation) : M Result :=
  match o with
  | GetConfig d task obj backup_file remove_lines substitute_lines =>
      get_config_of d E task obj backup_file remove_lines substitute_lines
  | CheckConnectivity Napalm task obj =>
      NautobotNornirDriver.check_connectivity E task obj
  | CheckConnectivity Netmiko task obj =>
      NetmikoNautobotNornirDriver.check_connectivity E task obj
  | ComplianceConfig Napalm task obj f b i p =>
      NautobotNornirDriver.compliance_config E task obj f b i p
  | ComplianceConfig Netmiko task obj f b i p =>
      NetmikoNautobotNornirDriver.compliance_config E task obj f b i p
  | GenerateConfig Napalm task obj t r o =>
      NautobotNornirDriver.generate_config E task obj t r o
  | GenerateConfig Netmiko task obj t r o =>
      NetmikoNautobotNornirDriver.generate_config E task obj t r o
  end.

Definition obj_of (o : operation) : string :=
  match o with
  | GetConfig _ _ obj _ _ _ | CheckConnectivity _ _ obj
  | ComplianceConfig _ _ obj _ _ _ _ | GenerateConfig _ _ obj _ _ _ => obj
  end.

(** Number of [log_failure] calls in a log. *)
Fixpoint count_log_failure (t : list event) : nat :=
  match t with
  | [] => 0
  | log_failure _ _ :: t' => S (count_log_failure t')
  | _ :: t' => count_log_failure t'
  end.

(** Number of calls to the comparison engine. *)
Fixpoint count_compliance (t : list event) : nat :=
  match t with
  | [] => 0
  | compliance _ _ _ _ :: t' => S (count_compliance t')
  | _ :: t' => count_compliance t'
  end.

(** The storage calls of a log: directories made, files opened, and the
    texts written, in order. *)
Definition is_storage (e : event) : bool :=
  match e with
  | make_folder _ | open_w _ | write _ _ => true
  | _ => false
  end.

Definition storage_calls (t : list event) : list event := filter is_storage t.

Fixpoint writes (t : list event) : list (string * string) :=
  match t with
  | [] => []
  | write path text :: t' => (path, text) :: writes t'
  | _ :: t' => writes t'
  end.

(** The log ends with the one and only [log_failure] call, made on [obj]. *)
Definition logged_once_at_end (obj : string) (t : list event) : Prop :=
  exists pre msg,
    t = (pre ++ [log_failure obj msg])%list /\ count_log_failure pre = 0.

(** A failure reaches the caller: an exception, or a failed result. *)
Definition surfaces_failure (r : res Result) : bool :=
  match r with
  | Raise _ => true
  | Ok (FailedResult _) => true
  | Ok (MkResult _ _) => false
  end.

Definition returns_failed_result (r : res Result) : bool :=
  match r with
  | Ok (FailedResult _) => true
  | _ => false
  end.

Definition is_napalm_get_config (o : operation) : bool :=
  match o with
  | GetConfig Napalm _ _ _ _ _ => true
  | _ => false
  end.

(** The exception is the failure signal of the source. *)
Definition is_NornirNautobotException {A} (r : res A) : bool :=
  match r with
  | Raise (NornirNautobotException _) => true
  | _ => false
  end.

(** [t] is [s] with some characters deleted. *)
Inductive deletion_of : string -> string -> Prop :=
| deletion_nil : deletion_of EmptyString EmptyString
| deletion_keep c t s : deletion_of t s -> deletion_of (String c t) (String c s)
| deletion_drop c t s : deletion_of t s -> deletion_of t (String c s).


(** Number of newline characters. *)
Fixpoint count_nl (s : string) : nat :=
  match s with
  | EmptyString => 0
  | String c s' => (if Ascii.eqb c PyStr.newline then 1 else 0) + count_nl s'
  end.

(** The two sanitizing steps on a text, removal first. *)
Definition sanitized (raw : string) (remove_lines : list Re.regex)
           (substitute_lines : list substitution) : res string :=
  _substitute_lines (_remove_lines raw remove_lines) substitute_lines.

(** The text the transport hands to [get_config], when it hands one. *)
Definition raw_config (E : collaborators) (d : driver) (task : Host)
  : option string :=
  match d with
  | Napalm =>
      match napalm_get E task with
      | inr r =>
          match failed r, result r with
          | false, Some (Some running) => Some running
          | _, _ => None
          end
      | inl _ => None
      end
  | Netmiko =>
      match netmiko_send_command E task
              (dict_get RUN_COMMAND_MAPPING (platform task)
                 (dict_item RUN_COMMAND_MAPPING "default")) with
      | inr r => if failed r then None else Some (result r)
      | inl _ => None
      end
  end.

(** The message logged for a Jinja error, by kind; [None] for an exception
    that is no [TemplateError]. *)
Definition jinja_message (exc : exception) : option string :=
  if isinstance exc UndefinedError then
    Some ("There was a jinja2.exceptions.UndefinedError error: ``"
          ++ exc_str exc ++ "``")
  else if isinstance exc TemplateSyntaxError then
    Some ("There was a jinja2.TemplateSyntaxError error: ``"
          ++ exc_str exc ++ "``")
  else if isinstance exc TemplateNotFound then
    Some ("There was an issue finding the template and a jinja2.TemplateNotFound error was raised: ``"
          ++ exc_str exc ++ "``")
  else if isinstance exc TemplateError then
    Some ("There was an issue general Jinja error: ``" ++ exc_str exc ++ "``")
  else None.

(** The connectivity check as the specification words it: four steps, the
    first failure ends the check. *)
Module Spec.

Definition failure (obj msg : string) : M Result :=
  ([log_failure obj msg], Raise (NornirNautobotException (Some msg))).




End Spec.

(* ================================================================== *)
(** * Notions used in the proofs *)
(* ================================================================== *)

(** State [s'] is reached from [s] by reading some text; the number of
    group slots does not change on the way. *)
Definition reads_to (s s' : Re.mstate) : Prop :=
  (exists read, Re.rest s = read ++ Re.rest s')
  /\ List.length (Re.caps s') = List.length (Re.caps s).

(** The discipline of a step of an operation run on [obj]: if it ends with
    the failure signal, the log ends with the only [log_failure] call; if it
    returns, or ends with another exception, nothing has been logged as a
    failure. *)
Definition disciplined {A} (obj : string) (m : M A) : Prop :=
  match outcome m with
  | Raise (NornirNautobotException _) => logged_once_at_end obj (trace m)
  | Raise _ => count_log_failure (trace m) = 0
  | Ok _ => count_log_failure (trace m) = 0
  end.

(** [get_config] of the napalm driver is about to hand back a failed
    result. *)
Definition napalm_failed (E : collaborators) (o : operation) : bool :=
  match o with
  | GetConfig Napalm task _ _ _ _ =>
      match napalm_get E task with
      | inr r => failed r
      | inl _ => false
      end
  | _ => false
  end.

(** A matcher is forward when a success of [m s k] is a success of [k] at a
    state reached from [s]. *)
Definition forward
           (m : Re.mstate -> (Re.mstate -> option Re.mstate) -> option Re.mstate)
  : Prop :=
  forall s k x, m s k = Some x -> exists s', k s' = Some x /\ reads_to s s'.

(** A matcher is local when it looks at what follows only through the
    states reached from where it starts. *)
Definition local
           (m : Re.mstate -> (Re.mstate -> option Re.mstate) -> option Re.mstate)
  : Prop :=
  forall s k1 k2,
    (forall s', reads_to s s' -> k1 s' = k2 s') -> m s k1 = m s k2.

(** What [sub_loop] needs of its bound: twice the length of the text, and
    one more when an empty match is still allowed at the first position. *)
Definition sub_measure (must_advance : bool) (text : string) : nat :=
  2 * String.length text + (if must_advance then 0 else 1).

(* ================================================================== *)
(** * Sample hosts, rules and collaborators *)
(* ================================================================== *)

Module Samples.

Import Re.

Definition r1 : Host :=
  MkHost "r1" "10.0.0.1" (Some "cisco_ios") (Some "admin") (Some "s3cret").

Definition r1_no_password : Host :=
  MkHost "r1" "10.0.0.1" (Some "cisco_ios") (Some "admin")
         (Some EmptyString).

(** The search of the rule of the specification. *)
Definition user_search : regex := pattern "^user (\S+)$".

Definition enable_search : regex := pattern "^enable secret (\S+)$".

Definition redact_user : substitution := MkSubstitution user_search "REDACTED".
Definition redact_enable : substitution :=
  MkSubstitution enable_search "REDACTED".

(** The same search as [redact_user] without the group. *)
Definition redact_no_group : substitution :=
  MkSubstitution (pattern "^user \S+$") "REDACTED".

(** A comment line, with its newline. *)
Definition comment_line : regex := pattern "^!.*\n".

Definition ok_str (s : string) : sub_result string :=
  SubResult false EmptyString s.

(** A device that answers on port 22 and whose transports return [raw];
    every file exists, the templating and comparison engines succeed and
    the storage calls do not raise. *)
Definition device (raw : string) : collaborators :=
  {| is_ip := fun h => String.eqb h "10.0.0.1";
     hostname_resolves := fun _ => false;
     gethostbyname := fun h => inl (Exc (OtherClass "socket.gaierror") h);
     test_tcp_port := fun _ port => Nat.eqb port 22;
     path_exists := fun _ => true;
     napalm_get := fun _ =>
       inr (SubResult false EmptyString (Some (Some raw)));
     netmiko_send_command := fun _ _ => inr (ok_str raw);
     template_file := fun _ _ _ => inr (ok_str raw);
     compliance_engine := fun _ _ _ _ => inr "{}";
     make_folder_raises := fun _ => None;
     open_raises := fun _ => None |}.

(** The same device with other answers from the sub-tasks. *)
Definition with_netmiko (E : collaborators)
           (answer : run_exc + sub_result string) : collaborators :=
  {| is_ip := is_ip E;
     hostname_resolves := hostname_resolves E;
     gethostbyname := gethostbyname E;
     test_tcp_port := test_tcp_port E;
     path_exists := path_exists E;
     napalm_get := napalm_get E;
     netmiko_send_command := fun _ _ => answer;
     template_file := template_file E;
     compliance_engine := compliance_engine E;
     make_folder_raises := make_folder_raises E;
     open_raises := open_raises E |}.

Definition with_template_file (E : collaborators)
           (answer : run_exc + sub_result string) : collaborators :=
  {| is_ip := is_ip E;
     hostname_resolves := hostname_resolves E;
     gethostbyname := gethostbyname E;
     test_tcp_port := test_tcp_port E;
     path_exists := path_exists E;
     napalm_get := napalm_get E;
     netmiko_send_command := netmiko_send_command E;
     template_file := fun _ _ _ => answer;
     compliance_engine := compliance_engine E;
     make_folder_raises := make_folder_raises E;
     open_raises := open_raises E |}.

Definition with_missing_file (E : collaborators) (missing : string)
  : collaborators :=
  {| is_ip := is_ip E;
     hostname_resolves := hostname_resolves E;
     gethostbyname := gethostbyname E;
     test_tcp_port := test_tcp_port E;
     path_exists := fun p => negb (String.eqb p missing);
     napalm_get := napalm_get E;
     netmiko_send_command := netmiko_send_command E;
     template_file := template_file E;
     compliance_engine := compliance_engine E;
     make_folder_raises := make_folder_raises E;
     open_raises := open_raises E |}.

Definition value_error : exception := Exc (OtherClass "ValueError") "boom".



(** The sub-task of the CLI driver hands back a failed result. *)
Definition netmiko_failed : collaborators :=
  with_netmiko (device EmptyString)
               (inr (SubResult true "Traceback" EmptyString)).

(** Rendering raises an exception that is no Jinja error. *)
Definition template_value_error : collaborators :=
  with_template_file (device EmptyString) (inl (SubTaskError value_error)).

End Samples.

(* ================================================================== *)
(** * Further notions: texts as lines, and what an operation touches *)
(* ================================================================== *)

(** The strings of a list, one after the other. *)
Fixpoint join_all (l : list string) : string :=
  match l with
  | [] => EmptyString
  | s :: more => s ++ join_all more
  end.

(** [n] copies of [s]. *)
Fixpoint repeat_string (s : string) (n : nat) : string :=
  match n with
  | O => EmptyString
  | S n' => s ++ repeat_string s n'
  end.

(** A line as [_substitute_lines] appends it. *)
Definition appended (line : string) : string := PyStr.rstrip line ++ NL.

(** The text made of the given lines, each closed by a newline. *)
Definition text_of_lines (lines : list string) : string :=
  join_all (map (fun l => l ++ NL) lines).

(** [^prefix.*\n] for a literal [prefix]: a line that starts with [prefix],
    with its newline. *)
Definition line_with_prefix (prefix : string) : Re.regex :=
  Re.RSeq Re.RBol
    (Re.RSeq (Re.lit prefix)
       (Re.RSeq (Re.RStar (Re.RChar Re.CAny))
                (Re.RChar (Re.CLit PyStr.newline)))).



(** Number of sub-tasks run ([task.run] calls) in a log. *)
Fixpoint count_runs (t : list event) : nat :=
  match t with
  | [] => 0
  | run_napalm_get :: t' | run_netmiko_send_command _ :: t'
  | run_template_file _ _ :: t' => S (count_runs t')
  | _ :: t' => count_runs t'
  end.

(** The storage calls an operation on the file [f] can have made: the
    folder, then the file opened, then the one text written. *)
Definition storage_prefix (f : string) (calls : list event) : Prop :=
  calls = []
  \/ calls = [make_folder (PyStr.dirname f)]
  \/ calls = [make_folder (PyStr.dirname f); open_w f].

Definition is_juniper_junos (platform : option string) : bool :=
  match platform with
  | Some p => String.eqb p "juniper_junos"
  | None => false
  end.

(** The character before the position reached by reading [read] after a
    position whose previous character is [p]. *)
Fixpoint after (p : option ascii) (read : string) : option ascii :=
  match read with
  | EmptyString => p
  | String c more => after (Some c) more
  end.

(** A search result with [s] added in front of the text it skipped. *)
Definition skip_more (s : string) (found : option (string * Re.mstate))
  : option (string * Re.mstate) :=
  match found with
  | Some (skipped, st) => Some (s ++ skipped, st)
  | None => None
  end.

(** The position is the start of a line (multiline mode). *)
Definition line_start (p : option ascii) : Prop :=
  p = None \/ p = Some PyStr.newline.

(** Lines that do not start with [prefix]. *)
Definition without_prefix (prefix : string) (lines : list string)
  : list string :=
  filter (fun l => negb (String.prefix prefix l)) lines.

(** The [log_debug] calls with the given messages. *)
Definition debug_log (msgs : list string) : list event := map log_debug msgs.

(** The tail of both [get_config]: sanitize, store, return. *)
Definition sanitize_and_save (E : collaborators) (file host : string)
           (running_config : option string) (remove_lines : list Re.regex)
           (substitute_lines : list substitution) : M Result :=
  running_config <- sanitize running_config remove_lines substitute_lines ;;
  written <- save E file running_config ;;
  ret (MkResult host (Config written)).

(** The tail of [generate_config]: store, return. *)
Definition save_and_return (E : collaborators) (file host : string)
           (text : option string) : M Result :=
  written <- save E file text ;;
  ret (MkResult host (Config written)).

(** The ways such a tail can end, after the debug messages [msgs]: an
    error of the sanitizer before any storage call; an exception of
    [make_folder]; an exception of [open]; [TypeError] on writing [None];
    the text written and returned. *)
Inductive tail_end (file host : string) (msgs : list string)
  : M Result -> Prop :=
| tail_sanitizer_error e :
    e = IndexError \/ e = TypeError \/ e = AttributeError ->
    tail_end file host msgs (debug_log msgs, Raise e)
| tail_make_folder_raises e :
    tail_end file host msgs
      ((debug_log msgs ++ [make_folder (PyStr.dirname file)])%list,
       Raise (Uncaught e))
| tail_open_raises e :
    tail_end file host msgs
      ((debug_log msgs
        ++ [make_folder (PyStr.dirname file); open_w file])%list,
       Raise (Uncaught e))
| tail_write_none :
    tail_end file host msgs
      ((debug_log msgs
        ++ [make_folder (PyStr.dirname file); open_w file])%list,
       Raise TypeError)
| tail_written text :
    tail_end file host msgs
      ((debug_log msgs
        ++ [make_folder (PyStr.dirname file); open_w file;
            write file text])%list,
       Ok (MkResult host (Config text))).

(** The configuration [get_config] of the napalm driver reads in the
    result of the sub-task: [result.get("config", {}).get("running")]. *)
Definition running_of (payload : option (option string)) : option string :=
  match payload with
  | Some (Some running) => Some running
  | _ => None
  end.

(** The command of the CLI driver for a platform. *)
Definition run_command (platform : option string) : string :=
  dict_get RUN_COMMAND_MAPPING platform
           (dict_item RUN_COMMAND_MAPPING "default").

(** The sub-task a driver runs in [get_config]. *)
Definition run_event (d : driver) (task : Host) : event :=
  match d with
  | Napalm => run_napalm_get
  | Netmiko => run_netmiko_send_command (run_command (platform task))
  end.

(** The first two calls of [get_config]. *)
Definition get_config_head (d : driver) (task : Host) : list event :=
  [log_debug ("Executing get_config for " ++ name task ++ " on "
              ++ str_of (platform task));
   run_event d task].

(** The ways [get_config] can end after its first two calls [head]: a
    failure logged and signalled; an exception of [task.run] that is not a
    sub-task error; the failed result handed back, logged (napalm) or not
    (CLI); or one of the ends of the tail. *)
Inductive get_config_end (d : driver) (obj file host : string)
          (head : list event) : M Result -> Prop :=
| end_signalled msg :
    get_config_end d obj file host head
      ((head ++ [log_failure obj msg])%list,
       Raise (NornirNautobotException None))
| end_uncaught e :
    get_config_end d obj file host head (head, Raise (Uncaught e))
| end_failed_logged msg x :
    d = Napalm ->
    get_config_end d obj file host head
      ((head ++ [log_failure obj msg])%list, Ok (FailedResult x))
| end_failed x :
    d = Netmiko ->
    get_config_end d obj file host head (head, Ok (FailedResult x))
| end_tail msgs t r :
    tail_end file host msgs (t, r) ->
    get_config_end d obj file host head ((head ++ t)%list, r).

(** The ways [generate_config] can end after [task.run]. *)
Inductive generate_config_end (obj file host : string) (head : list event)
  : M Result -> Prop :=
| gen_signalled msg :
    generate_config_end obj file host head
      ((head ++ [log_failure obj msg])%list,
       Raise (NornirNautobotException None))
| gen_reraised exc :
    generate_config_end obj file host head
      (head, Raise (NornirSubTaskError exc))
| gen_uncaught e :
    generate_config_end obj file host head (head, Raise (Uncaught e))
| gen_tail t r :
    tail_end file host [] (t, r) ->
    generate_config_end obj file host head ((head ++ t)%list, r).

(** The ways [check_connectivity] can end. *)
Inductive check_connectivity_end (E : collaborators) (task : Host)
          (obj : string) : M Result -> Prop :=
| check_passed :
    check_connectivity_end E task obj ([], Ok (MkResult (name task) NoPayload))
| check_failed msg :
    check_connectivity_end E task obj
      ([log_failure obj msg], Raise (NornirNautobotException (Some msg)))
| check_resolver_raised e :
    is_ip E (hostname task) = false ->
    hostname_resolves E (hostname task) = true ->
    gethostbyname E (hostname task) = inl e ->
    check_connectivity_end E task obj ([], Raise (Uncaught e)).

(** A pattern made of anchors, empty patterns and their combinations: it
    can only match the empty string. *)
Fixpoint zero_width (r : Re.regex) : bool :=
  match r with
  | Re.REps | Re.RBol | Re.REol => true
  | Re.RChar _ => false
  | Re.RSeq a b | Re.RAlt a b => zero_width a && zero_width b
  | Re.RStar a | Re.RPlus a | Re.ROpt a | Re.RGroup a => zero_width a
  end.

(** A matcher reads nothing when a success of [m s k] is a success of [k]
    at a state with the same text left. *)
Definition reads_nothing
           (m : Re.mstate -> (Re.mstate -> option Re.mstate) -> option Re.mstate)
  : Prop :=
  forall s k x,
    m s k = Some x -> exists s', k s' = Some x /\ Re.rest s' = Re.rest s.

(** More sample collaborators. *)
Module MoreSamples.

Import Samples.

Definition with_napalm (E : collaborators)
           (answer : run_exc + sub_result (option (option string)))
  : collaborators :=
  {| is_ip := is_ip E;
     hostname_resolves := hostname_resolves E;
     gethostbyname := gethostbyname E;
     test_tcp_port := test_tcp_port E;
     path_exists := path_exists E;
     napalm_get := fun _ => answer;
     netmiko_send_command := netmiko_send_command E;
     template_file := template_file E;
     compliance_engine := compliance_engine E;
     make_folder_raises := make_folder_raises E;
     open_raises := open_raises E |}.

(** The getter answers with a "config" entry that has no "running" key. *)
Definition napalm_without_running : collaborators :=
  with_napalm (device EmptyString)
              (inr (SubResult false EmptyString (Some None))).


End MoreSamples.

(* ================================================================== *)
(** * Strings *)
(* ================================================================== *)

Section StringFacts.

Lemma append_nil_r (s : string) : s ++ EmptyString = s.
Proof. induction s as [|c s IH]; simpl; [reflexivity | now rewrite IH]. Qed.

Lemma append_assoc (a b c : string) : (a ++ b) ++ c = a ++ (b ++ c).
Proof. induction a as [|x a IH]; simpl; [reflexivity | now rewrite IH]. Qed.

Lemma length_append (a b : string) :
  String.length (a ++ b) = String.length a + String.length b.
Proof. induction a as [|x a IH]; simpl; [reflexivity | now rewrite IH]. Qed.

Lemma count_nl_append (a b : string) :
  count_nl (a ++ b) = count_nl a + count_nl b.
Proof.
  induction a as [|x a IH]; simpl; [reflexivity|].
  rewrite IH. lia.
Qed.

Lemma split_nl_length (s : string) :
  List.length (PyStr.split_nl s) = S (count_nl s).
Proof.
  induction s as [|c s IH]; simpl; [reflexivity|].
  destruct (Ascii.eqb c PyStr.newline); simpl.
  - now rewrite IH.
  - destruct (PyStr.split_nl s) as [|h t]; simpl in *; [discriminate | exact IH].
Qed.

Lemma deletion_refl (s : string) : deletion_of s s.
Proof. induction s; constructor; assumption. Qed.

Lemma deletion_trans (a b c : string) :
  deletion_of a b -> deletion_of b c -> deletion_of a c.
Proof.
  intros Hab Hbc. revert a Hab.
  induction Hbc as [|x b c Hbc IH|x b c Hbc IH]; intros a Hab.
  - exact Hab.
  - inversion Hab; subst.
    + apply deletion_keep. now apply IH.
    + apply deletion_drop. now apply IH.
  - apply deletion_drop. now apply IH.
Qed.

Lemma deletion_skip (pre s : string) : deletion_of s (pre ++ s).
Proof.
  induction pre as [|c pre IH]; simpl.
  - apply deletion_refl.
  - now apply deletion_drop.
Qed.

Lemma deletion_under (pre t s : string) :
  deletion_of t s -> deletion_of (pre ++ t) (pre ++ s).
Proof.
  intros H. induction pre as [|c pre IH]; simpl; [exact H|].
  now apply deletion_keep.
Qed.

Lemma deletion_length (t s : string) :
  deletion_of t s -> String.length t <= String.length s.
Proof. induction 1; simpl; lia. Qed.

End StringFacts.

(* ================================================================== *)
(** * The matcher only moves forward *)
(* ================================================================== *)

Section Matcher.

Import Re.

Lemma reads_to_refl (s : mstate) : reads_to s s.
Proof. split; [now exists EmptyString | reflexivity]. Qed.

Lemma reads_to_trans (a b c : mstate) :
  reads_to a b -> reads_to b c -> reads_to a c.
Proof.
  intros [[x Hx] La] [[y Hy] Lb]. split.
  - exists (x ++ y). now rewrite Hx, Hy, append_assoc.
  - congruence.
Qed.

Lemma reads_to_remaining (s s' : mstate) :
  reads_to s s' -> remaining s' <= remaining s.
Proof.
  intros [[x Hx] _]. unfold remaining. rewrite Hx, length_append. lia.
Qed.

Lemma set_nth_length {A} (i : nat) (v : A) (l : list A) :
  List.length (set_nth i v l) = List.length l.
Proof.
  revert i. induction l as [|h t IH]; intros [|i]; simpl; auto.
Qed.

Lemma orelse_some {A} (a b : option A) (x : A) :
  orelse a b = Some x -> a = Some x \/ (a = None /\ b = Some x).
Proof. destruct a; simpl; intros H; [left | right]; auto. Qed.

Lemma repeat_loop_forward body k :
  forward body ->
  forall n s0 x, repeat_loop body k n s0 = Some x ->
                 exists s', k s' = Some x /\ reads_to s0 s'.
Proof.
  intros Hbody. induction n as [|n IH]; intros s0 x H; simpl in H.
  - exists s0. split; [exact H | apply reads_to_refl].
  - apply orelse_some in H. destruct H as [H | [_ H]].
    + apply Hbody in H. destruct H as (s1 & H & R1).
      destruct (remaining s1 =? remaining s0)%nat.
      * now exists s1.
      * apply IH in H. destruct H as (s' & H & R2).
        exists s'. split; [exact H | eapply reads_to_trans; eauto].
    + exists s0. split; [exact H | apply reads_to_refl].
Qed.

Lemma rmatch_forward ml r : forall base, forward (rmatch ml r base).
Proof.
  induction r as [|cs|a IHa b IHb|a IHa b IHb|a IHa|a IHa|a IHa|a IHa| |];
    intros base s k x H; cbn [rmatch] in H.
  - exists s. split; [exact H | apply reads_to_refl].
  - destruct (rest s) as [|c t] eqn:Hrest; [discriminate|].
    destruct (charset_mem cs c); [|discriminate].
    eexists. split; [exact H|].
    split; [exists (String c EmptyString); simpl; exact Hrest | reflexivity].
  - apply IHa in H. destruct H as (s1 & H & R1).
    apply IHb in H. destruct H as (s2 & H & R2).
    exists s2. split; [exact H | eapply reads_to_trans; eauto].
  - apply orelse_some in H. destruct H as [H | [_ H]].
    + now apply IHa in H.
    + now apply IHb in H.
  - eapply repeat_loop_forward; eauto.
  - apply IHa in H. destruct H as (s1 & H & R1).
    eapply repeat_loop_forward in H; [|apply IHa].
    destruct H as (s2 & H & R2).
    exists s2. split; [exact H | eapply reads_to_trans; eauto].
  - apply orelse_some in H. destruct H as [H | [_ H]].
    + now apply IHa in H.
    + exists s. split; [exact H | apply reads_to_refl].
  - apply IHa in H. destruct H as (s1 & H & [R1 L1]).
    eexists. split; [exact H|].
    split; [exact R1 | simpl; now rewrite set_nth_length].
  - destruct (at_bol ml s); [|discriminate].
    exists s. split; [exact H | apply reads_to_refl].
  - destruct (at_eol ml s); [|discriminate].
    exists s. split; [exact H | apply reads_to_refl].
Qed.

(** A match at one position ends at a suffix of the text, and is not empty
    when it had to advance. *)
Lemma match_at_reads ml r adv p text s' :
  match_at ml r adv p text = Some s' ->
  (exists matched,
      text = matched ++ rest s'
      /\ (adv = true -> matched <> EmptyString))
  /\ List.length (caps s') = ngroups r.
Proof.
  unfold match_at. intros H.
  apply rmatch_forward in H. destruct H as (s1 & H & [[mt Hm] L]).
  simpl in Hm, L.
  destruct (adv && (remaining s1 =? String.length text)%nat) eqn:Hadv;
    [discriminate|].
  injection H as <-. split.
  - exists mt. split; [exact Hm|].
    intros -> Hempty. subst mt. simpl in Hm. simpl in Hadv.
    unfold remaining in Hadv. rewrite Hm, Nat.eqb_refl in Hadv. discriminate.
  - now rewrite L, repeat_length.
Qed.

(** [groups()] has one entry per group of the pattern. *)
Lemma match_groups_length r line groups :
  match_groups r line = Some groups -> List.length groups = ngroups r.
Proof.
  unfold match_groups.
  destruct (match_at false r false None line) as [s'|] eqn:H; [|discriminate].
  intros [= <-]. now apply match_at_reads in H.
Qed.

Lemma search_from_reads ml r : forall text adv p skipped s',
  search_from ml r adv p text = Some (skipped, s') ->
  exists matched,
    text = skipped ++ matched ++ rest s'
    /\ (adv = true -> skipped = EmptyString -> matched <> EmptyString).
Proof.
  induction text as [|c text IH]; intros adv p skipped s' H; simpl in H.
  - destruct (match_at ml r adv p EmptyString) as [s0|] eqn:Hm; [|discriminate].
    injection H as <- <-. apply match_at_reads in Hm.
    destruct Hm as [(mt & Hm & Hadv) _]. exists mt. simpl. auto.
  - destruct (match_at ml r adv p (String c text)) as [s0|] eqn:Hm.
    + injection H as <- <-. apply match_at_reads in Hm.
      destruct Hm as [(mt & Hm & Hadv) _]. exists mt. simpl. auto.
    + destruct (search_from ml r false (Some c) text) as [[sk s1]|] eqn:Hs;
        [|discriminate].
      injection H as <- <-. apply IH in Hs. destruct Hs as (mt & Ht & _).
      exists mt. simpl. split; [now rewrite <- Ht | discriminate].
Qed.

(** With the empty replacement, [re.sub] only deletes. *)
Lemma sub_loop_deletes ml r : forall fuel adv p text,
  deletion_of (sub_loop fuel ml r EmptyString adv p text) text.
Proof.
  induction fuel as [|fuel IH]; intros adv p text; simpl.
  - apply deletion_refl.
  - destruct (search_from ml r adv p text) as [[skipped s']|] eqn:Hs.
    + apply search_from_reads in Hs. destruct Hs as (m & Hm & _).
      rewrite Hm at 2. apply deletion_under. simpl.
      eapply deletion_trans; [apply IH | apply deletion_skip].
    + apply deletion_refl.
Qed.

Lemma sub_loop_step fuel ml r repl adv p text :
  sub_loop (S fuel) ml r repl adv p text
  = match search_from ml r adv p text with
    | None => text
    | Some (skipped, s') =>
        skipped ++ repl
        ++ sub_loop fuel ml r repl
             (remaining s' =? String.length text - String.length skipped)%nat
             (prev s') (rest s')
    end.
Proof. reflexivity. Qed.

Lemma sub_deletes r text : deletion_of (sub r EmptyString text) text.
Proof. apply sub_loop_deletes. Qed.

Lemma sub_not_found r repl text :
  found true r text = false -> sub r repl text = text.
Proof.
  unfold found, sub. rewrite sub_loop_step.
  destruct (search_from true r false None text) as [[sk s']|];
    [discriminate | reflexivity].
Qed.

End Matcher.

(* ================================================================== *)
(** * The bounds of the loops are never reached *)
(* ================================================================== *)

Section Bounds.

Import Re.

Lemma repeat_loop_local body :
  local body ->
  forall n s k1 k2,
    (forall s', reads_to s s' -> k1 s' = k2 s') ->
    repeat_loop body k1 n s = repeat_loop body k2 n s.
Proof.
  intros Hbody. induction n as [|n IH]; intros s k1 k2 Hk; simpl.
  - apply Hk, reads_to_refl.
  - rewrite (Hk s (reads_to_refl s)). f_equal.
    apply Hbody. intros s1 R1.
    rewrite (Hk s1 R1).
    destruct (remaining s1 =? remaining s)%nat; [reflexivity|].
    apply IH. intros s2 R2. apply Hk. eapply reads_to_trans; eauto.
Qed.

Lemma rmatch_local ml r : forall base, local (rmatch ml r base).
Proof.
  induction r as [|cs|a IHa b IHb|a IHa b IHb|a IHa|a IHa|a IHa|a IHa| |];
    intros base s k1 k2 Hk; cbn [rmatch].
  - apply Hk, reads_to_refl.
  - destruct (rest s) as [|c t] eqn:Hrest; [reflexivity|].
    destruct (charset_mem cs c); [|reflexivity].
    apply Hk. split; [exists (String c EmptyString); simpl; exact Hrest | reflexivity].
  - apply IHa. intros s1 R1. apply IHb. intros s2 R2.
    apply Hk. eapply reads_to_trans; eauto.
  - rewrite (IHa base s k1 k2 Hk), (IHb (base + ngroups a) s k1 k2 Hk).
    reflexivity.
  - apply repeat_loop_local; [apply IHa | exact Hk].
  - apply IHa. intros s1 R1. apply repeat_loop_local; [apply IHa|].
    intros s2 R2. apply Hk. eapply reads_to_trans; eauto.
  - rewrite (IHa base s k1 k2 Hk), (Hk s (reads_to_refl s)). reflexivity.
  - apply IHa. intros s1 [R1 L1]. apply Hk.
    split; [exact R1 | simpl; now rewrite set_nth_length].
  - destruct (at_bol ml s); [apply Hk, reads_to_refl | reflexivity].
  - destruct (at_eol ml s); [apply Hk, reads_to_refl | reflexivity].
Qed.

(** Any bound above the length of the remaining text gives the same
    repetition: the bound [S (remaining s)] of [rmatch] is never the reason
    a repetition stops. *)
Lemma repeat_loop_bound body k :
  local body ->
  forall n m s,
    remaining s < n -> remaining s < m ->
    repeat_loop body k n s = repeat_loop body k m s.
Proof.
  intros Hbody. induction n as [|n IH]; intros m s Hn Hm; [lia|].
  destruct m as [|m]; [lia|]. simpl. f_equal.
  apply Hbody. intros s1 R1. apply reads_to_remaining in R1.
  destruct (remaining s1 =? remaining s)%nat eqn:He; [reflexivity|].
  apply Nat.eqb_neq in He. apply IH; lia.
Qed.

Lemma star_bound ml a base s k extra :
  rmatch ml (RStar a) base s k
  = repeat_loop (rmatch ml a base) k (S (remaining s) + extra) s.
Proof.
  cbn [rmatch]. apply repeat_loop_bound; [apply rmatch_local | lia | lia].
Qed.

Lemma plus_bound ml a base s k extra :
  rmatch ml (RPlus a) base s k
  = rmatch ml a base s
      (fun s' =>
         repeat_loop (rmatch ml a base) k (S (remaining s') + extra) s').
Proof.
  cbn [rmatch]. apply rmatch_local. intros s' _.
  apply repeat_loop_bound; [apply rmatch_local | lia | lia].
Qed.

(** A match found by [search_from] leaves less for the next round. *)
Lemma search_from_measure ml r adv p text skipped s' :
  search_from ml r adv p text = Some (skipped, s') ->
  sub_measure (remaining s' =? String.length text - String.length skipped)%nat
              (rest s')
  < sub_measure adv text.
Proof.
  intros H. apply search_from_reads in H. destruct H as (mt & Hm & Hadv).
  unfold sub_measure, remaining.
  assert (String.length text
          = String.length skipped + String.length mt + String.length (rest s'))
    as Hlen by (rewrite Hm at 1; rewrite !length_append; lia).
  destruct (String.length (rest s') =? String.length text
                                       - String.length skipped)%nat eqn:He.
  - apply Nat.eqb_eq in He.
    assert (String.length mt = 0) as Hmt by lia.
    destruct adv; [|lia].
    destruct skipped as [|c sk]; [|simpl in *; lia].
    destruct mt; [|discriminate]. exfalso. now apply Hadv.
  - apply Nat.eqb_neq in He. destruct adv; lia.
Qed.

(** Any bound above the measure gives the same substitution: the bound of
    [sub] is never the reason the loop of [re.sub] stops. *)
Lemma sub_loop_bound ml r repl :
  forall f1 f2 adv p text,
    sub_measure adv text < f1 -> sub_measure adv text < f2 ->
    sub_loop f1 ml r repl adv p text = sub_loop f2 ml r repl adv p text.
Proof.
  induction f1 as [|f1 IH]; intros f2 adv p text H1 H2; [lia|].
  destruct f2 as [|f2]; [lia|]. rewrite !sub_loop_step.
  destruct (search_from ml r adv p text) as [[skipped s']|] eqn:Hs;
    [|reflexivity].
  apply search_from_measure in Hs.
  do 2 f_equal. apply IH; lia.
Qed.

(** [sub] satisfies the equation of the loop of [re.sub] without a bound. *)
Lemma sub_unfold r repl text :
  sub r repl text
  = match search_from true r false None text with
    | None => text
    | Some (skipped, s') =>
        skipped ++ repl
        ++ sub_loop (S (sub_measure
                          (remaining s' =? String.length text
                                           - String.length skipped)%nat
                          (rest s')))
             true r repl
             (remaining s' =? String.length text - String.length skipped)%nat
             (prev s') (rest s')
    end.
Proof.
  unfold sub. rewrite sub_loop_step.
  destruct (search_from true r false None text) as [[skipped s']|] eqn:Hs;
    [|reflexivity].
  apply search_from_measure in Hs. unfold sub_measure in Hs at 2.
  do 2 f_equal. apply sub_loop_bound; lia.
Qed.

End Bounds.

(* ================================================================== *)
(** * The line sanitizer: removal *)
(* ================================================================== *)

Section Removal.

Import Re.

(** Without a pattern, or a rule, the text is returned as it is. *)
Lemma remove_lines_nil (config : string) : _remove_lines config [] = config.
Proof. reflexivity. Qed.

Lemma substitute_lines_nil (config : string) :
  _substitute_lines config [] = Ok config.
Proof. reflexivity. Qed.

(** Whatever the patterns, [_remove_lines] only deletes characters. *)
Lemma remove_lines_only_deletes (remove_lines : list regex) :
  forall config, deletion_of (_remove_lines config remove_lines) config.
Proof.
  induction remove_lines as [|p more IH]; intros config; simpl.
  - apply deletion_refl.
  - eapply deletion_trans; [apply IH | apply sub_deletes].
Qed.

(** Patterns that match nowhere leave the text as it is. *)
Lemma remove_lines_no_match (remove_lines : list regex) (config : string) :
  (forall p, In p remove_lines -> found true p config = false) ->
  _remove_lines config remove_lines = config.
Proof.
  induction remove_lines as [|p more IH]; intros H; simpl; [reflexivity|].
  rewrite sub_not_found by (apply H; now left).
  apply IH. intros q Hq. apply H. now right.
Qed.



End Removal.

(* ================================================================== *)
(** * The line sanitizer: substitution *)
(* ================================================================== *)

Section Substitution.

Import Re.
Import Samples.

(** The sample searches, as [compile] reads them. *)
Lemma user_search_compiled :
  compile "^user (\S+)$"
  = Some (seq_of [RBol; RChar (CLit "u"); RChar (CLit "s"); RChar (CLit "e");
                  RChar (CLit "r"); RChar (CLit " ");
                  RGroup (RPlus (RChar (CNot CSpace))); REol])
  /\ ngroups user_search = 1.
Proof. split; reflexivity. Qed.

Lemma no_group_search_compiled :
  compile "^user \S+$"
  = Some (seq_of [RBol; RChar (CLit "u"); RChar (CLit "s"); RChar (CLit "e");
                  RChar (CLit "r"); RChar (CLit " ");
                  RPlus (RChar (CNot CSpace)); REol]).
Proof. reflexivity. Qed.

Lemma substitute_items_newlines (items : list substitution) :
  forall line acc out,
    substitute_items items line acc = Ok out ->
    count_nl acc + List.length items <= count_nl out.
Proof.
  induction items as [|item more IH]; intros line acc out H; simpl in H.
  - injection H as <-. simpl. lia.
  - destruct (substitute_item line item) as [line'|e]; [|discriminate].
    apply IH in H. rewrite !count_nl_append in H. simpl in *.
    unfold NL in H. simpl in H. lia.
Qed.

Lemma substitute_each_newlines (items : list substitution) :
  forall lines acc out,
    substitute_each lines items acc = Ok out ->
    count_nl acc + List.length lines * List.length items <= count_nl out.
Proof.
  induction lines as [|line more IH]; intros acc out H; simpl in H.
  - injection H as <-. simpl. lia.
  - destruct (substitute_items items line acc) as [acc'|e] eqn:Hi;
      [|discriminate].
    apply substitute_items_newlines in Hi. apply IH in H. simpl. lia.
Qed.

(** Every line of the input is written once for each rule: the output of a
    non-empty rule list has at least (lines x rules) newlines. *)
Lemma substitute_lines_one_line_per_rule config items out :
  items <> [] ->
  _substitute_lines config items = Ok out ->
  List.length (PyStr.split_nl config) * List.length items <= count_nl out.
Proof.
  intros Hne H. unfold _substitute_lines in H.
  destruct items as [|i more]; [contradiction|]. cbn [nonempty] in H.
  apply substitute_each_newlines in H. simpl in *. lia.
Qed.

(** C2, at the failing input: one input line and two rules, neither of
    which matches; the line is written twice. *)
Theorem substitute_lines_repeats_line_for_each_rule :
  _substitute_lines "hostname r1" [redact_user; redact_enable]
  = Ok ("hostname r1" ++ NL ++ "hostname r1" ++ NL).
Proof. vm_compute. reflexivity. Qed.

(** C3, as stated, fails: the output line is not [REDACTED]. *)
Lemma substitute_user_line_is_not_replaced_whole :
  _substitute_lines "user alice" [redact_user] <> Ok ("REDACTED" ++ NL).
Proof. vm_compute. discriminate. Qed.

(** C3, amended: with the single rule [^user (\S+)$] -> [REDACTED], the
    input line [user alice] yields the output line [user REDACTED],
    right-trimmed and newline-terminated: the text of the first group is
    what is replaced, the rest of the line stays. *)
Theorem substitute_user_line_redacts_group :
  _substitute_lines "user alice" [redact_user] = Ok ("user REDACTED" ++ NL).
Proof. vm_compute. reflexivity. Qed.

(** A rule without a group either leaves a line alone or raises. *)
Lemma substitute_item_no_group line item :
  ngroups (regex_search item) = 0 ->
  substitute_item line item
  = match match_groups (regex_search item) line with
    | None => Ok line
    | Some _ => Raise IndexError
    end.
Proof.
  intros H0. unfold substitute_item.
  destruct (match_groups (regex_search item) line) as [groups|] eqn:Hm;
    [|reflexivity].
  apply match_groups_length in Hm. rewrite H0 in Hm.
  destruct groups; [reflexivity | discriminate].
Qed.

Lemma substitute_items_no_group (items : list substitution) line :
  (forall i, In i items -> ngroups (regex_search i) = 0) ->
  forall acc,
    (exists item, In item items
                  /\ match_groups (regex_search item) line <> None)
    -> substitute_items items line acc = Raise IndexError.
Proof.
  induction items as [|i more IH]; intros H0 acc (item & Hin & Hm).
  - destruct Hin.
  - simpl. rewrite substitute_item_no_group by (apply H0; now left).
    destruct (match_groups (regex_search i) line) eqn:Hi; [reflexivity|].
    destruct Hin as [-> | Hin]; [congruence|].
    apply IH; [intros j Hj; apply H0; now right | now exists item].
Qed.

Lemma substitute_items_no_group_result (items : list substitution) line :
  (forall i, In i items -> ngroups (regex_search i) = 0) ->
  forall acc,
    (exists out, substitute_items items line acc = Ok out)
    \/ substitute_items items line acc = Raise IndexError.
Proof.
  induction items as [|i more IH]; intros H0 acc; simpl.
  - left. now eexists.
  - rewrite substitute_item_no_group by (apply H0; now left).
    destruct (match_groups (regex_search i) line); [now right|].
    apply IH. intros j Hj. apply H0. now right.
Qed.

Lemma substitute_each_no_group (items : list substitution) :
  (forall i, In i items -> ngroups (regex_search i) = 0) ->
  forall lines acc,
    (exists line item,
        In line lines /\ In item items
        /\ match_groups (regex_search item) line <> None) ->
    substitute_each lines items acc = Raise IndexError.
Proof.
  intros H0. induction lines as [|l more IH];
    intros acc (line & item & Hl & Hi & Hm).
  - destruct Hl.
  - simpl. destruct Hl as [-> | Hl].
    + rewrite substitute_items_no_group; eauto.
    + destruct (substitute_items_no_group_result items l H0 acc)
        as [[out ->] | ->]; [|reflexivity].
      apply IH. now exists line, item.
Qed.

(** C4, as stated, fails: the rule [^user \S+$] has no group and matches the
    line; what leaves [_substitute_lines] is the [IndexError] of
    [groups()[0]], not the failure signal of the source, and [get_config]
    lets it through without a call to [log_failure]. *)
Lemma substitute_without_group_raises_index_error :
  ngroups (regex_search redact_no_group) = 0
  /\ match_groups (regex_search redact_no_group) "user alice" <> None
  /\ _substitute_lines "user alice" [redact_no_group] = Raise IndexError
  /\ is_NornirNautobotException
       (_substitute_lines "user alice" [redact_no_group]) = false
  /\ outcome (NetmikoNautobotNornirDriver.get_config (device "user alice") r1
                "obj" "/backups/r1.cfg" [] [redact_no_group])
     = Raise IndexError
  /\ count_log_failure
       (trace (NetmikoNautobotNornirDriver.get_config (device "user alice") r1
                 "obj" "/backups/r1.cfg" [] [redact_no_group])) = 0.
Proof. vm_compute. repeat split. discriminate. Qed.

(** C4, amended: when the search regexes of the rules have no capturing
    group and one of them matches a line of the input from position 0,
    [_substitute_lines] raises [IndexError] (the out-of-range access
    [groups()[0]]); no [NornirNautobotException] is raised in its place. *)
Theorem substitute_without_group_is_index_error
        (config : string) (substitute_lines : list substitution)
        (line : string) (item : substitution) :
  (forall i, In i substitute_lines -> ngroups (regex_search i) = 0) ->
  In line (PyStr.split_nl config) ->
  In item substitute_lines ->
  match_groups (regex_search item) line <> None ->
  _substitute_lines config substitute_lines = Raise IndexError.
Proof.
  intros H0 Hl Hi Hm. unfold _substitute_lines.
  destruct substitute_lines as [|i more]; [destruct Hi|]. cbn [nonempty].
  apply substitute_each_no_group; [exact H0|]. now exists line, item.
Qed.

Lemma substitute_without_group_is_index_error_witness :
  _substitute_lines "user alice" [redact_no_group] = Raise IndexError.
Proof.
  apply (substitute_without_group_is_index_error
           "user alice" [redact_no_group] "user alice" redact_no_group).
  - intros i [<- | []]. reflexivity.
  - simpl. now left.
  - simpl. now left.
  - vm_compute. discriminate.
Defined.

End Substitution.

(* ================================================================== *)
(** * Computations and their logs *)
(* ================================================================== *)

Section Logs.

Lemma trace_bind {A B} (m : M A) (f : A -> M B) :
  trace (bind m f)
  = match outcome m with
    | Ok a => (trace m ++ trace (f a))%list
    | Raise _ => trace m
    end.
Proof.
  destruct m as [t [a|e]]; simpl; [|reflexivity].
  now destruct (f a).
Qed.

Lemma outcome_bind {A B} (m : M A) (f : A -> M B) :
  outcome (bind m f)
  = match outcome m with
    | Ok a => outcome (f a)
    | Raise e => Raise e
    end.
Proof.
  destruct m as [t [a|e]]; simpl; [|reflexivity].
  now destruct (f a).
Qed.


Lemma count_log_failure_app (t u : list event) :
  count_log_failure (t ++ u) = count_log_failure t + count_log_failure u.
Proof.
  induction t as [|e t IH]; simpl; [reflexivity|].
  destruct e; simpl; rewrite IH; reflexivity.
Qed.

Lemma count_compliance_app (t u : list event) :
  count_compliance (t ++ u) = count_compliance t + count_compliance u.
Proof.
  induction t as [|e t IH]; simpl; [reflexivity|].
  destruct e; simpl; rewrite IH; reflexivity.
Qed.


Lemma logged_once_count obj t :
  logged_once_at_end obj t -> count_log_failure t = 1.
Proof.
  intros (pre & msg & -> & H). rewrite count_log_failure_app, H. reflexivity.
Qed.

(** ** The discipline is kept by every way of putting steps together *)

Lemma disciplined_ret {A} obj (a : A) : disciplined obj (ret a).
Proof. reflexivity. Qed.

Lemma disciplined_bind {A B} obj (m : M A) (f : A -> M B) :
  disciplined obj m -> (forall a, disciplined obj (f a)) ->
  disciplined obj (bind m f).
Proof.
  unfold disciplined. intros Hm Hf.
  rewrite outcome_bind, trace_bind.
  destruct (outcome m) as [a|e]; [|exact Hm].
  specialize (Hf a).
  destruct (outcome (f a)) as [b|[args|x| | | |x]];
    try (rewrite count_log_failure_app; lia).
  destruct Hf as (pre & msg & -> & Hpre).
  exists (trace m ++ pre)%list, msg. split.
  - now rewrite app_assoc.
  - rewrite count_log_failure_app. lia.
Qed.

Lemma disciplined_when {A} obj (c : bool) (body : M unit) (k : M A) :
  disciplined obj body -> disciplined obj k ->
  disciplined obj (when c body ;; k).
Proof.
  intros Hb Hk. apply disciplined_bind; [|intros _; exact Hk].
  destruct c; [exact Hb | reflexivity].
Qed.

(** The one way the source signals a failure: log it, then raise. *)
Lemma disciplined_log_and_raise {A} obj msg args :
  disciplined obj
    (emit (log_failure obj msg) ;; @raise A (NornirNautobotException args)).
Proof. exists [], msg. split; reflexivity. Qed.

Lemma disciplined_fails obj e : disciplined obj (fails e).
Proof. destruct e; reflexivity. Qed.

Lemma disciplined_save E obj file text : disciplined obj (save E file text).
Proof.
  unfold save, do_make_folder, do_open_w.
  destruct (make_folder_raises E (PyStr.dirname file)); [reflexivity|].
  destruct (open_raises E file); [reflexivity|].
  destruct text; reflexivity.
Qed.

End Logs.

(* ================================================================== *)
(** * What the sanitizer can raise *)
(* ================================================================== *)

Section SanitizerErrors.

Lemma substitute_item_quiet line item :
  is_NornirNautobotException (substitute_item line item) = false.
Proof.
  unfold substitute_item.
  destruct (Re.match_groups (regex_search item) line) as [[|[g|] gs]|];
    reflexivity.
Qed.

Lemma substitute_items_quiet (items : list substitution) :
  forall line acc,
    is_NornirNautobotException (substitute_items items line acc) = false.
Proof.
  induction items as [|item more IH]; intros line acc; simpl; [reflexivity|].
  pose proof (substitute_item_quiet line item) as Hq.
  destruct (substitute_item line item) as [line'|e]; [apply IH | exact Hq].
Qed.

Lemma substitute_each_quiet (items : list substitution) :
  forall lines acc,
    is_NornirNautobotException (substitute_each lines items acc) = false.
Proof.
  induction lines as [|line more IH]; intros acc; simpl; [reflexivity|].
  pose proof (substitute_items_quiet items line acc) as Hq.
  destruct (substitute_items items line acc) as [acc'|e];
    [apply IH | exact Hq].
Qed.

(** [_substitute_lines] never raises the failure signal of the source. *)
Lemma substitute_lines_quiet config items :
  is_NornirNautobotException (_substitute_lines config items) = false.
Proof.
  unfold _substitute_lines.
  destruct (nonempty items); [apply substitute_each_quiet | reflexivity].
Qed.

Lemma disciplined_sanitize obj rc remove_lines substitute_lines :
  disciplined obj (sanitize rc remove_lines substitute_lines).
Proof.
  unfold sanitize, disciplined.
  destruct remove_lines as [|p ps], substitute_lines as [|i more], rc as [raw|];
    cbn -[_substitute_lines _remove_lines]; try reflexivity.
  - pose proof (substitute_lines_quiet raw (i :: more)) as Hq.
    destruct (_substitute_lines raw (i :: more)) as [c|[args|x| | | |x]];
      cbn; try reflexivity. discriminate.
  - pose proof (substitute_lines_quiet (_remove_lines raw (p :: ps)) (i :: more))
      as Hq.
    destruct (_substitute_lines (_remove_lines raw (p :: ps)) (i :: more))
      as [c|[args|x| | | |x]]; cbn; try reflexivity. discriminate.
Qed.



End SanitizerErrors.

(* ================================================================== *)
(** * The operations: failures and the log *)
(* ================================================================== *)

Section Operations.

Import Samples.

Variable E : collaborators.

Ltac discipline :=
  repeat first
    [ apply disciplined_log_and_raise
    | apply disciplined_sanitize
    | apply disciplined_save
    | apply disciplined_when
    | apply disciplined_bind; [|intros ?]
    | reflexivity
    | match goal with
      | |- disciplined _ (match ?x with _ => _ end) => destruct x eqn:?
      | |- disciplined _ (if ?c then _ else _) => destruct c eqn:?
      end ].

Lemma get_config_napalm_disciplined task obj f rl sl :
  napalm_failed E (GetConfig Napalm task obj f rl sl) = false ->
  disciplined obj (NautobotNornirDriver.get_config E task obj f rl sl).
Proof.
  unfold napalm_failed, NautobotNornirDriver.get_config. intros H.
  apply disciplined_bind; [reflexivity | intros _].
  apply disciplined_bind; [reflexivity | intros _].
  destruct (napalm_get E task) as [[exc|e]|r0]; [discipline | discipline |].
  rewrite H. discipline.
Qed.

Lemma get_config_netmiko_disciplined task obj f rl sl :
  disciplined obj (NetmikoNautobotNornirDriver.get_config E task obj f rl sl).
Proof. unfold NetmikoNautobotNornirDriver.get_config. discipline. Qed.

Lemma check_connectivity_disciplined task obj :
  disciplined obj (NautobotNornirDriver.check_connectivity E task obj).
Proof. unfold NautobotNornirDriver.check_connectivity. discipline. Qed.

Lemma compliance_config_disciplined task obj f b i p :
  disciplined obj (NautobotNornirDriver.compliance_config E task obj f b i p).
Proof. unfold NautobotNornirDriver.compliance_config. discipline. Qed.

Lemma generate_config_disciplined task obj t r o :
  disciplined obj (NautobotNornirDriver.generate_config E task obj t r o).
Proof. unfold NautobotNornirDriver.generate_config. discipline. Qed.

Lemma run_disciplined (o : operation) :
  napalm_failed E o = false -> disciplined (obj_of o) (run E o).
Proof.
  destruct o as [[|] task obj f rl sl | [|] task obj
                 | [|] task obj f b i p | [|] task obj t r o]; intros H; simpl.
  - now apply get_config_napalm_disciplined.
  - apply get_config_netmiko_disciplined.
  - apply check_connectivity_disciplined.
  - apply check_connectivity_disciplined.
  - apply compliance_config_disciplined.
  - apply compliance_config_disciplined.
  - apply generate_config_disciplined.
  - apply generate_config_disciplined.
Qed.

(** When the sub-task of the napalm driver hands back a failed result,
    [get_config] logs the failure and returns that result. *)
Lemma get_config_napalm_failed task obj f rl sl r0 :
  napalm_get E task = inr r0 -> failed r0 = true ->
  NautobotNornirDriver.get_config E task obj f rl sl
  = ([log_debug ("Executing get_config for " ++ name task ++ " on "
                 ++ str_of (platform task));
      run_napalm_get;
      log_failure obj ("Failed with a unknown issue. `" ++ exception_str r0
                       ++ "`")],
     Ok (FailedResult (exception_str r0))).
Proof.
  intros H1 H2. unfold NautobotNornirDriver.get_config.
  rewrite H1, H2. reflexivity.
Qed.

End Operations.

(* ================================================================== *)
(** * The operations: the properties of the specification *)
(* ================================================================== *)

Section Claims.

Import Samples.

Variable E : collaborators.

Lemma get_config_napalm_result task obj f rl sl :
  napalm_failed E (GetConfig Napalm task obj f rl sl) = false ->
  returns_failed_result
    (outcome (NautobotNornirDriver.get_config E task obj f rl sl)) = false.
Proof.
  unfold napalm_failed, NautobotNornirDriver.get_config. intros H.
  rewrite !outcome_bind. cbn [emit outcome snd].
  destruct (napalm_get E task) as [[exc|e]|r0]; [reflexivity | reflexivity |].
  rewrite H, outcome_bind.
  destruct (outcome (sanitize _ rl sl)) as [rc|e]; [|reflexivity].
  rewrite outcome_bind.
  destruct (outcome (save E f rc)); reflexivity.
Qed.

(** C5, amended: on every path of every operation that ends by raising
    [NornirNautobotException] (the failure signal of the source), and on
    the path of the napalm [get_config] that returns the failed result of
    its sub-task, [log_failure] has been called exactly once, on the object
    of the operation, and it is the last call made.  A path that ends with
    any other exception, or with a result that is not failed, has made no
    call to [log_failure].  (Nothing is said of the failed result that the
    CLI [get_config] returns.) *)
Theorem failure_signal_is_logged_once (o : operation) :
  match outcome (run E o) with
  | Raise (NornirNautobotException _) =>
      logged_once_at_end (obj_of o) (trace (run E o))
  | Raise _ => count_log_failure (trace (run E o)) = 0
  | Ok (FailedResult _) =>
      if is_napalm_get_config o
      then logged_once_at_end (obj_of o) (trace (run E o))
      else True
  | Ok (MkResult _ _) => count_log_failure (trace (run E o)) = 0
  end.
Proof.
  destruct (napalm_failed E o) eqn:Hf.
  - destruct o as [[|] task obj f rl sl | | | ]; try discriminate.
    simpl in Hf. destruct (napalm_get E task) as [x|r0] eqn:Hn; [discriminate|].
    simpl. rewrite (get_config_napalm_failed E task obj f rl sl r0 Hn Hf).
    exists [log_debug ("Executing get_config for " ++ name task ++ " on "
                       ++ str_of (platform task)); run_napalm_get].
    eexists. split; reflexivity.
  - pose proof (run_disciplined E o Hf) as Hd. unfold disciplined in Hd.
    destruct (outcome (run E o)) as [[host v|x]|[args|x| | | |x]] eqn:Ho;
      try exact Hd.
    destruct o as [[|] task obj f rl sl | | | ]; try exact I.
    simpl in Ho.
    pose proof (get_config_napalm_result task obj f rl sl Hf) as Hr.
    rewrite Ho in Hr. discriminate.
Qed.

(** An exception of the sanitizer leaves [get_config] as it is, for both
    drivers: it is not logged as a failure and nothing is stored. *)
Lemma get_config_lets_sanitizer_errors_through
      (d : driver) (task : Host) (obj backup_file : string)
      (remove_lines : list Re.regex) (substitute_lines : list substitution)
      (raw : string) (e : pyexc) :
  raw_config E d task = Some raw ->
  (d = Netmiko ->
   PyStr.contains NetmikoNautobotNornirDriver.INVALID_INPUT raw = false) ->
  sanitized raw remove_lines substitute_lines = Raise e ->
  let m := get_config_of d E task obj backup_file remove_lines substitute_lines in
  outcome m = Raise e
  /\ count_log_failure (trace m) = 0
  /\ storage_calls (trace m) = [].
Proof.
  unfold raw_config, sanitized. intros Hraw Hmarker Hs.
  assert (sanitize (Some raw) remove_lines substitute_lines
          = ((if nonempty remove_lines
              then [log_debug
                      "Removing lines from configuration based on `remove_lines` definition"]
              else [])
             ++ [log_debug
                   "Substitute lines from configuration based on `substitute_lines` definition"],
             Raise e))%list as Hsan.
  { unfold sanitize.
    destruct substitute_lines as [|i more];
      [destruct remove_lines; discriminate|].
    destruct remove_lines as [|p ps]; cbn -[_substitute_lines _remove_lines].
    - cbn [_remove_lines] in Hs. rewrite Hs. reflexivity.
    - rewrite Hs. reflexivity. }
  destruct d; cbn [get_config_of].
  - unfold NautobotNornirDriver.get_config.
    destruct (napalm_get E task) as [x|r0]; [discriminate|].
    destruct (failed r0); [discriminate|].
    destruct (result r0) as [[running|]|]; try discriminate.
    injection Hraw as ->. rewrite Hsan.
    destruct (nonempty remove_lines); cbn; repeat split.
  - unfold NetmikoNautobotNornirDriver.get_config.
    destruct (netmiko_send_command E task _) as [x|r0]; [discriminate|].
    destruct (failed r0); [discriminate|].
    injection Hraw as ->. rewrite (Hmarker eq_refl), Hsan.
    destruct (nonempty remove_lines); cbn; repeat split.
Qed.

(** C6: for the CLI driver, when the transport returns (a result that is
    not failed and) whose output contains [ERROR: % Invalid input detected
    at], [get_config] logs the invalid command and raises the failure
    signal; no storage call is made: no folder, no open, no write. *)
Theorem get_config_invalid_input_not_written
        (task : Host) (obj backup_file : string)
        (remove_lines : list Re.regex) (substitute_lines : list substitution)
        (r0 : sub_result string) :
  netmiko_send_command E task
    (dict_get RUN_COMMAND_MAPPING (platform task)
       (dict_item RUN_COMMAND_MAPPING "default")) = inr r0 ->
  failed r0 = false ->
  PyStr.contains "ERROR: % Invalid input detected at" (result r0) = true ->
  let m := NetmikoNautobotNornirDriver.get_config
             E task obj backup_file remove_lines substitute_lines in
  outcome m = Raise (NornirNautobotException None)
  /\ logged_once_at_end obj (trace m)
  /\ In (log_failure obj
           "Discovered `ERROR: % Invalid input detected at` in the output")
        (trace m)
  /\ storage_calls (trace m) = []
  /\ writes (trace m) = [].
Proof.
  intros Hrun Hfailed Hmarker m. subst m.
  unfold NetmikoNautobotNornirDriver.get_config.
  rewrite Hrun, Hfailed.
  unfold NetmikoNautobotNornirDriver.INVALID_INPUT. rewrite Hmarker.
  cbn. repeat split.
  - eexists [_; _], _. split; reflexivity.
  - right. right. now left.
Qed.

(** On the path where the transport hands back a failed result, whatever
    its text, the CLI [get_config] returns that result; nothing is logged
    as a failure and nothing is stored. *)
Lemma get_config_netmiko_failed_result
      (task : Host) (obj backup_file : string)
      (remove_lines : list Re.regex) (substitute_lines : list substitution)
      (r0 : sub_result string) :
  netmiko_send_command E task
    (dict_get RUN_COMMAND_MAPPING (platform task)
       (dict_item RUN_COMMAND_MAPPING "default")) = inr r0 ->
  failed r0 = true ->
  let m := NetmikoNautobotNornirDriver.get_config
             E task obj backup_file remove_lines substitute_lines in
  outcome m = Ok (FailedResult (exception_str r0))
  /\ count_log_failure (trace m) = 0
  /\ storage_calls (trace m) = [].
Proof.
  intros Hrun Hfailed m. subst m.
  unfold NetmikoNautobotNornirDriver.get_config.
  rewrite Hrun, Hfailed. cbn. repeat split.
Qed.

(** C7, amended: in [generate_config] a sub-task error that carries one of
    the four Jinja kinds is caught, logged with the message of its kind and
    turned into [NornirNautobotException]; a sub-task error that carries
    any other exception is raised again as it is, and an exception that is
    not a sub-task error is not caught; neither is logged.  When the
    sub-task returns, the outcome is the rendered text or the exception of
    a storage call. *)
Theorem generate_config_classifies_jinja_errors
        (task : Host) (obj jinja_template jinja_root_path out : string) :
  let m := NautobotNornirDriver.generate_config
             E task obj jinja_template jinja_root_path out in
  match template_file E task jinja_template jinja_root_path with
  | inl (SubTaskError exc) =>
      match jinja_message exc with
      | Some msg =>
          isinstance exc TemplateError = true
          /\ m = ([run_template_file jinja_template jinja_root_path;
                   log_failure obj msg],
                  Raise (NornirNautobotException None))
      | None =>
          isinstance exc TemplateError = false
          /\ m = ([run_template_file jinja_template jinja_root_path],
                  Raise (NornirSubTaskError exc))
      end
  | inl (OtherExc e) =>
      m = ([run_template_file jinja_template jinja_root_path],
           Raise (Uncaught e))
  | inr r0 =>
      outcome m = Ok (MkResult (name task) (Config (result r0)))
      \/ exists e, outcome m = Raise (Uncaught e)
  end.
Proof.
  intros m. subst m. unfold NautobotNornirDriver.generate_config.
  destruct (template_file E task jinja_template jinja_root_path)
    as [[exc|e]|r0]; [| reflexivity |].
  - unfold jinja_message.
    destruct (isinstance exc UndefinedError) eqn:H1.
    { split; [|reflexivity].
      destruct exc as [[] s]; try discriminate; reflexivity. }
    destruct (isinstance exc TemplateSyntaxError) eqn:H2.
    { split; [|reflexivity].
      destruct exc as [[] s]; try discriminate; reflexivity. }
    destruct (isinstance exc TemplateNotFound) eqn:H3.
    { split; [|reflexivity].
      destruct exc as [[] s]; try discriminate; reflexivity. }
    destruct (isinstance exc TemplateError) eqn:H4; split; reflexivity.
  - unfold save, do_make_folder, do_open_w.
    destruct (make_folder_raises E (PyStr.dirname out)) as [e|];
      [right; now exists e|].
    destruct (open_raises E out) as [e|]; [right; now exists e|].
    left. reflexivity.
Qed.

(** C8: when the backup file does not exist, or the intended file does
    not, [compliance_config] logs the failure once and raises the failure
    signal, and the comparison engine has not been called. *)
Theorem compliance_config_missing_file_no_comparison
        (task : Host) (obj features backup_file intended_file platform : string) :
  path_exists E backup_file = false \/ path_exists E intended_file = false ->
  let m := NautobotNornirDriver.compliance_config
             E task obj features backup_file intended_file platform in
  outcome m = Raise (NornirNautobotException None)
  /\ count_compliance (trace m) = 0
  /\ logged_once_at_end obj (trace m).
Proof.
  intros H m. subst m. unfold NautobotNornirDriver.compliance_config.
  destruct (path_exists E backup_file) eqn:Hb.
  - destruct H as [H|H]; [discriminate|]. rewrite H. cbn.
    repeat split. eexists [], _. split; reflexivity.
  - cbn. repeat split. eexists [], _. split; reflexivity.
Qed.



End Claims.

(* ================================================================== *)
(** * The properties at the sample inputs *)
(* ================================================================== *)

Section AtSamples.

Import Samples.

(** C5, as stated, fails: the CLI [get_config] returns the failed result of
    its sub-task without a call to [log_failure] (the napalm driver logs on
    that path), and [generate_config] raises a sub-task error that is no
    Jinja error again without logging it. *)
Lemma failure_surfaces_without_log_failure :
  (let m := run netmiko_failed
              (GetConfig Netmiko r1 "obj" "/backups/r1.cfg" [] []) in
   outcome m = Ok (FailedResult "Traceback")
   /\ surfaces_failure (outcome m) = true
   /\ count_log_failure (trace m) = 0)
  /\ (let m := run template_value_error
                 (GenerateConfig Napalm r1 "obj" "r1.j2" "/templates"
                                 "/intended/r1.cfg") in
      outcome m = Raise (NornirSubTaskError value_error)
      /\ surfaces_failure (outcome m) = true
      /\ count_log_failure (trace m) = 0).
Proof. vm_compute. repeat split. Qed.

Lemma get_config_invalid_input_not_written_witness :
  let E := device "show rnu ERROR: % Invalid input detected at line 1" in
  let m := NetmikoNautobotNornirDriver.get_config
             E r1 "obj" "/backups/r1.cfg" [] [redact_user] in
  outcome m = Raise (NornirNautobotException None)
  /\ logged_once_at_end "obj" (trace m)
  /\ In (log_failure "obj"
           "Discovered `ERROR: % Invalid input detected at` in the output")
        (trace m)
  /\ storage_calls (trace m) = []
  /\ writes (trace m) = [].
Proof.
  intros E.
  apply (get_config_invalid_input_not_written
           E r1 "obj" "/backups/r1.cfg" [] [redact_user]
           (ok_str "show rnu ERROR: % Invalid input detected at line 1"));
    reflexivity.
Defined.

(** C7, as stated, fails: rendering raises a [ValueError]; the sub-task
    error that carries it leaves [generate_config] as it came, neither
    logged nor turned into [NornirNautobotException]. *)
Lemma generate_config_reraises_other_errors :
  let m := NautobotNornirDriver.generate_config
             template_value_error r1 "obj" "r1.j2" "/templates"
             "/intended/r1.cfg" in
  m = ([run_template_file "r1.j2" "/templates"],
       Raise (NornirSubTaskError value_error))
  /\ isinstance value_error TemplateError = false
  /\ is_NornirNautobotException (outcome m) = false.
Proof. vm_compute. repeat split. Qed.

Lemma compliance_config_missing_file_no_comparison_witness :
  let E := with_missing_file (device EmptyString) "/backups/r1.cfg" in
  let m := NautobotNornirDriver.compliance_config
             E r1 "obj" "ntp" "/backups/r1.cfg" "/intended/r1.cfg" "cisco_ios" in
  path_exists E "/backups/r1.cfg" = false
  /\ outcome m = Raise (NornirNautobotException None)
  /\ count_compliance (trace m) = 0
  /\ logged_once_at_end "obj" (trace m).
Proof.
  intros E. split; [reflexivity|].
  apply (compliance_config_missing_file_no_comparison
           E r1 "obj" "ntp" "/backups/r1.cfg" "/intended/r1.cfg" "cisco_ios").
  left. reflexivity.
Defined.



(** The scenario of the specification: a literal address, port 22 open,
    a username and an empty password. *)
Example check_connectivity_empty_password :
  run (device EmptyString) (CheckConnectivity Napalm r1_no_password "obj")
  = Spec.failure "obj" "There was no password defined, preemptively failed.".
Proof. reflexivity. Qed.

Example check_connectivity_passes :
  run (device EmptyString) (CheckConnectivity Napalm r1 "obj")
  = ([], Ok (MkResult "r1" NoPayload)).
Proof. reflexivity. Qed.

(** The command sent by the CLI driver. *)
Example run_command_cisco_ios :
  dict_get RUN_COMMAND_MAPPING (Some "cisco_ios")
           (dict_item RUN_COMMAND_MAPPING "default") = "show run".
Proof. reflexivity. Qed.

Example run_command_junos :
  dict_get RUN_COMMAND_MAPPING (Some "juniper_junos")
           (dict_item RUN_COMMAND_MAPPING "default")
  = "show configuration | display set".
Proof. reflexivity. Qed.

Example run_command_unknown :
  dict_get RUN_COMMAND_MAPPING (Some "unknown_os")
           (dict_item RUN_COMMAND_MAPPING "default") = "show run"
  /\ dict_get RUN_COMMAND_MAPPING None
              (dict_item RUN_COMMAND_MAPPING "default") = "show run".
Proof. split; reflexivity. Qed.

(** A comment line removed with its newline, then a user redacted. *)
Example sanitized_backup :
  sanitized ("user alice" ++ NL ++ "! last change" ++ NL ++ "end")
            [comment_line] [redact_user]
  = Ok ("user REDACTED" ++ NL ++ "end" ++ NL).
Proof. vm_compute. reflexivity. Qed.

End AtSamples.

(* ================================================================== *)
(** * More on removal *)
(* ================================================================== *)

Section RemovalMore.

Import Re.
Import Samples.

Lemma deletion_count_nl (t s : string) :
  deletion_of t s -> count_nl t <= count_nl s.
Proof. induction 1; simpl; lia. Qed.

(** X1: removing with the patterns [ps] followed by the patterns [qs] is
    removing with [ps], then removing with [qs] in the result: a pattern
    sees the text its predecessors have left. *)
Theorem remove_lines_app (ps qs : list regex) :
  forall config,
    _remove_lines config (ps ++ qs)%list
    = _remove_lines (_remove_lines config ps) qs.
Proof.
  induction ps as [|p ps IH]; intros config; simpl; [reflexivity|].
  apply IH.
Qed.

(** X2: whatever the patterns, the output of [_remove_lines] is the input
    with characters deleted: nothing is added or reordered, the text does
    not get longer and no line is created. *)
Theorem remove_lines_never_adds (config : string) (remove_lines : list regex) :
  deletion_of (_remove_lines config remove_lines) config
  /\ String.length (_remove_lines config remove_lines) <= String.length config
  /\ count_nl (_remove_lines config remove_lines) <= count_nl config.
Proof.
  pose proof (remove_lines_only_deletes remove_lines config) as H.
  split; [exact H|]. split.
  - now apply deletion_length.
  - now apply deletion_count_nl.
Qed.

(** X3: when none of the patterns matches anywhere in the text,
    [_remove_lines] returns the text unchanged. *)
Theorem remove_lines_unchanged_without_match
        (config : string) (remove_lines : list regex) :
  (forall p, In p remove_lines -> found true p config = false) ->
  _remove_lines config remove_lines = config.
Proof. apply remove_lines_no_match. Qed.

Lemma remove_lines_unchanged_without_match_witness :
  _remove_lines ("hostname r1" ++ NL ++ "end" ++ NL)
                [comment_line; pattern "secret"]
  = "hostname r1" ++ NL ++ "end" ++ NL.
Proof.
  apply (remove_lines_unchanged_without_match
           ("hostname r1" ++ NL ++ "end" ++ NL)
           [comment_line; pattern "secret"]).
  intros p [<- | [<- | []]]; vm_compute; reflexivity.
Defined.

End RemovalMore.

(* ================================================================== *)
(** * More on substitution *)
(* ================================================================== *)

Section SubstitutionMore.

Import Re.
Import Samples.



Lemma count_nl_rstrip (s : string) : count_nl (PyStr.rstrip s) <= count_nl s.
Proof.
  induction s as [|c s IH]; simpl; [lia|].
  destruct (PyStr.rstrip s) as [|d t].
  - destruct (PyStr.isspace c); simpl; lia.
  - simpl in *. lia.
Qed.




(** ** Counting the lines *)

Lemma split_nl_newline_free (s : string) :
  Forall (fun l => count_nl l = 0) (PyStr.split_nl s).
Proof.
  induction s as [|c s IH]; simpl.
  - constructor; [reflexivity | constructor].
  - destruct (Ascii.eqb c PyStr.newline) eqn:Hc.
    + constructor; [reflexivity | exact IH].
    + destruct (PyStr.split_nl s) as [|h t].
      * constructor; [simpl; now rewrite Hc | constructor].
      * inversion IH; subst. constructor; [|assumption].
        simpl. rewrite Hc. assumption.
Qed.

Lemma count_nl_replace_from (old new : string) :
  count_nl new = 0 ->
  forall s skip, count_nl s = 0 ->
                 count_nl (PyStr.replace_from old new skip s) = 0.
Proof.
  intros Hnew. induction s as [|c s IH]; intros skip Hs; [reflexivity|].
  simpl in Hs. assert (count_nl s = 0) as Hs' by lia.
  cbn [PyStr.replace_from]. destruct skip as [|k]; [|now apply IH].
  destruct (String.prefix old (String c s)).
  - rewrite count_nl_append, Hnew. now apply IH.
  - simpl. rewrite IH by assumption. lia.
Qed.

Lemma count_nl_interleave (new : string) :
  count_nl new = 0 ->
  forall s, count_nl s = 0 -> count_nl (PyStr.interleave new s) = 0.
Proof.
  intros Hnew. induction s as [|c s IH]; intros Hs; [exact Hnew|].
  simpl in Hs. cbn [PyStr.interleave].
  rewrite count_nl_append, Hnew. simpl. rewrite IH by lia. lia.
Qed.

Lemma count_nl_replace (old new s : string) :
  count_nl new = 0 -> count_nl s = 0 -> count_nl (PyStr.replace old new s) = 0.
Proof.
  intros Hnew Hs. unfold PyStr.replace. destruct old.
  - now apply count_nl_interleave.
  - now apply count_nl_replace_from.
Qed.

Lemma substitute_item_newline_free line item line' :
  count_nl (regex_replacement item) = 0 -> count_nl line = 0 ->
  substitute_item line item = Ok line' -> count_nl line' = 0.
Proof.
  intros Hr Hl. unfold substitute_item.
  destruct (match_groups (regex_search item) line) as [[|[g|] gs]|];
    try discriminate; intros [= <-]; [|exact Hl].
  now apply count_nl_replace.
Qed.

Lemma substitute_items_newline_count (items : list substitution) :
  (forall i, In i items -> count_nl (regex_replacement i) = 0) ->
  forall line acc out,
    count_nl line = 0 ->
    substitute_items items line acc = Ok out ->
    count_nl out = count_nl acc + List.length items.
Proof.
  induction items as [|item more IH]; intros Hr line acc out Hl H; simpl in H.
  - injection H as <-. simpl. lia.
  - destruct (substitute_item line item) as [line'|e] eqn:Hi; [|discriminate].
    apply substitute_item_newline_free in Hi;
      [|apply Hr; now left | exact Hl].
    apply IH in H; [|intros j Hj; apply Hr; now right | exact Hi].
    rewrite H, !count_nl_append.
    pose proof (count_nl_rstrip line'). unfold NL. simpl. lia.
Qed.

Lemma substitute_each_newline_count (items : list substitution) :
  (forall i, In i items -> count_nl (regex_replacement i) = 0) ->
  forall lines acc out,
    Forall (fun l => count_nl l = 0) lines ->
    substitute_each lines items acc = Ok out ->
    count_nl out = count_nl acc + List.length lines * List.length items.
Proof.
  intros Hr. induction lines as [|line more IH]; intros acc out Hl H;
    simpl in H.
  - injection H as <-. simpl. lia.
  - inversion Hl; subst.
    destruct (substitute_items items line acc) as [acc'|e] eqn:Hi;
      [|discriminate].
    apply substitute_items_newline_count in Hi; [|assumption|assumption].
    apply IH in H; [|assumption]. simpl. lia.
Qed.

(** X6: when no replacement text holds a newline, the text returned for a
    non-empty list of rules has exactly (lines of the input) x (rules)
    newlines; with a single rule that is one line for each line of the
    input. *)
Theorem substitute_lines_newline_count
        (config : string) (substitute_lines : list substitution) (out : string) :
  substitute_lines <> [] ->
  (forall i, In i substitute_lines -> count_nl (regex_replacement i) = 0) ->
  _substitute_lines config substitute_lines = Ok out ->
  count_nl out = S (count_nl config) * List.length substitute_lines.
Proof.
  intros Hne Hr H. unfold _substitute_lines in H.
  destruct substitute_lines as [|i more]; [contradiction|].
  cbn [nonempty] in H.
  apply substitute_each_newline_count in H;
    [|exact Hr | apply split_nl_newline_free].
  rewrite H, split_nl_length. simpl. lia.
Qed.

Lemma substitute_lines_newline_count_witness :
  count_nl ("user REDACTED" ++ NL ++ "end" ++ NL)
  = S (count_nl ("user alice" ++ NL ++ "end")) * 1.
Proof.
  apply (substitute_lines_newline_count
           ("user alice" ++ NL ++ "end") [redact_user]).
  - discriminate.
  - intros i [<- | []]. reflexivity.
  - vm_compute. reflexivity.
Defined.

(** ** What it raises *)

Lemma substitute_item_raises line item :
  match substitute_item line item with
  | Ok _ | Raise IndexError | Raise TypeError => True
  | Raise _ => False
  end.
Proof.
  unfold substitute_item.
  destruct (match_groups (regex_search item) line) as [[|[g|] gs]|]; exact I.
Qed.

Lemma substitute_items_raises (items : list substitution) :
  forall line acc,
    match substitute_items items line acc with
    | Ok _ | Raise IndexError | Raise TypeError => True
    | Raise _ => False
    end.
Proof.
  induction items as [|item more IH]; intros line acc; simpl; [exact I|].
  pose proof (substitute_item_raises line item) as H.
  destruct (substitute_item line item) as [line'|e]; [apply IH | exact H].
Qed.

Lemma substitute_each_raises (items : list substitution) :
  forall lines acc,
    match substitute_each lines items acc with
    | Ok _ | Raise IndexError | Raise TypeError => True
    | Raise _ => False
    end.
Proof.
  induction lines as [|line more IH]; intros acc; simpl; [exact I|].
  pose proof (substitute_items_raises items line acc) as H.
  destruct (substitute_items items line acc) as [acc'|e];
    [apply IH | exact H].
Qed.


Lemma substitute_item_with_group line item :
  1 <= ngroups (regex_search item) ->
  substitute_item line item <> Raise IndexError.
Proof.
  intros Hg. unfold substitute_item.
  destruct (match_groups (regex_search item) line) as [groups|] eqn:Hm;
    [|discriminate].
  apply match_groups_length in Hm.
  destruct groups as [|[g|] gs]; try discriminate. simpl in Hm. lia.
Qed.

Lemma substitute_items_with_group (items : list substitution) :
  (forall i, In i items -> 1 <= ngroups (regex_search i)) ->
  forall line acc, substitute_items items line acc <> Raise IndexError.
Proof.
  induction items as [|item more IH]; intros Hg line acc; simpl;
    [discriminate|].
  pose proof (substitute_item_with_group line item (Hg item (or_introl eq_refl)))
    as H.
  destruct (substitute_item line item) as [line'|e].
  - apply IH. intros j Hj. apply Hg. now right.
  - congruence.
Qed.

Lemma substitute_each_with_group (items : list substitution) :
  (forall i, In i items -> 1 <= ngroups (regex_search i)) ->
  forall lines acc, substitute_each lines items acc <> Raise IndexError.
Proof.
  intros Hg. induction lines as [|line more IH]; intros acc; simpl;
    [discriminate|].
  pose proof (substitute_items_with_group items Hg line acc) as H.
  destruct (substitute_items items line acc) as [acc'|e];
    [apply IH | congruence].
Qed.

(** X10: when every search regex has at least one capturing group,
    [_substitute_lines] does not raise [IndexError]: it returns a text, or
    raises [TypeError] (the first group of a match took no part in it). *)
Theorem substitute_lines_with_groups
        (config : string) (substitute_lines : list substitution) :
  (forall i, In i substitute_lines -> 1 <= ngroups (regex_search i)) ->
  (exists out, _substitute_lines config substitute_lines = Ok out)
  \/ _substitute_lines config substitute_lines = Raise TypeError.
Proof.
  intros Hg.
  assert (match _substitute_lines config substitute_lines with
          | Ok _ | Raise IndexError | Raise TypeError => True
          | Raise _ => False
          end) as Hr.
  { unfold _substitute_lines. destruct (nonempty substitute_lines);
      [apply substitute_each_raises | exact I]. }
  assert (_substitute_lines config substitute_lines <> Raise IndexError) as Hi.
  { unfold _substitute_lines. destruct (nonempty substitute_lines);
      [now apply substitute_each_with_group | discriminate]. }
  destruct (_substitute_lines config substitute_lines)
    as [out|[args|x| | | |x]]; try contradiction.
  - left. now exists out.
  - now right.
Qed.

Lemma substitute_lines_with_groups_witness :
  (exists out,
      _substitute_lines ("user alice" ++ NL ++ "enable secret abc")
                        [redact_user; redact_enable] = Ok out)
  \/ _substitute_lines ("user alice" ++ NL ++ "enable secret abc")
                       [redact_user; redact_enable] = Raise TypeError.
Proof.
  apply (substitute_lines_with_groups
           ("user alice" ++ NL ++ "enable secret abc")
           [redact_user; redact_enable]).
  intros i [<- | [<- | []]]; vm_compute; lia.
Defined.

(** ** Rules that match nothing *)

Lemma text_of_split_nl (s : string) :
  text_of_lines (PyStr.split_nl s) = s ++ NL.
Proof.
  unfold text_of_lines. induction s as [|c s IH]; simpl; [reflexivity|].
  destruct (Ascii.eqb c PyStr.newline) eqn:Hc.
  - apply Ascii.eqb_eq in Hc. subst c. simpl. now rewrite IH.
  - destruct (PyStr.split_nl s) as [|h t]; simpl in *.
    + destruct s; discriminate.
    + now rewrite IH.
Qed.

Lemma substitute_item_without_match line item :
  match_groups (regex_search item) line = None ->
  substitute_item line item = Ok line.
Proof. intros H. unfold substitute_item. now rewrite H. Qed.

Lemma substitute_items_without_match (items : list substitution) line :
  (forall i, In i items -> match_groups (regex_search i) line = None) ->
  forall acc,
    substitute_items items line acc
    = Ok (acc ++ repeat_string (appended line) (List.length items)).
Proof.
  induction items as [|item more IH]; intros Hn acc; simpl.
  - now rewrite append_nil_r.
  - rewrite substitute_item_without_match by (apply Hn; now left).
    rewrite IH by (intros j Hj; apply Hn; now right).
    unfold appended. now rewrite !append_assoc.
Qed.

Lemma substitute_each_without_match (items : list substitution) :
  forall lines,
    (forall l i, In l lines -> In i items ->
                 match_groups (regex_search i) l = None) ->
    forall acc,
      substitute_each lines items acc
      = Ok (acc ++ join_all
                     (map (fun l => repeat_string (appended l)
                                                  (List.length items))
                          lines)).
Proof.
  induction lines as [|line more IH]; intros Hn acc; simpl.
  - now rewrite append_nil_r.
  - rewrite substitute_items_without_match
      by (intros i Hi; apply Hn; [now left | exact Hi]).
    rewrite IH by (intros l i Hl Hi; apply Hn; [now right | exact Hi]).
    now rewrite !append_assoc.
Qed.

(** X7: rules that match no line of the text change it all the same: every
    line comes out right-trimmed and closed by a newline, once for each
    rule. *)
Theorem substitute_lines_without_match
        (config : string) (substitute_lines : list substitution) :
  substitute_lines <> [] ->
  (forall line item,
      In line (PyStr.split_nl config) -> In item substitute_lines ->
      match_groups (regex_search item) line = None) ->
  _substitute_lines config substitute_lines
  = Ok (join_all
          (map (fun line => repeat_string (appended line)
                                          (List.length substitute_lines))
               (PyStr.split_nl config))).
Proof.
  intros Hne Hn. unfold _substitute_lines.
  destruct substitute_lines as [|i more]; [contradiction|].
  cbn [nonempty]. now rewrite substitute_each_without_match.
Qed.

Lemma substitute_lines_without_match_witness :
  _substitute_lines ("hostname r1  " ++ NL ++ "end")
                    [redact_user; redact_enable]
  = Ok (join_all
          (map (fun line => repeat_string (appended line) 2)
               (PyStr.split_nl ("hostname r1  " ++ NL ++ "end")))).
Proof.
  apply (substitute_lines_without_match
           ("hostname r1  " ++ NL ++ "end") [redact_user; redact_enable]).
  - discriminate.
  - intros line item [<- | [<- | []]] [<- | [<- | []]];
      vm_compute; reflexivity.
Defined.

(** X8: a single rule that matches no line, on a text none of whose lines
    ends with white space, returns the text with one newline added at its
    end. *)
Theorem substitute_lines_appends_newline
        (config : string) (item : substitution) :
  (forall line, In line (PyStr.split_nl config) ->
                match_groups (regex_search item) line = None
                /\ PyStr.rstrip line = line) ->
  _substitute_lines config [item] = Ok (config ++ NL).
Proof.
  intros H. unfold _substitute_lines. cbn [nonempty].
  rewrite substitute_each_without_match
    by (intros line i Hl [<- | []]; now apply H).
  rewrite <- text_of_split_nl. unfold text_of_lines. cbn [append].
  f_equal. f_equal.
  apply map_ext_in. intros l Hl. destruct (H l Hl) as [_ Hr].
  simpl. unfold appended. now rewrite Hr, append_nil_r.
Qed.

Lemma substitute_lines_appends_newline_witness :
  _substitute_lines ("hostname r1" ++ NL ++ "end") [redact_user]
  = Ok (("hostname r1" ++ NL ++ "end") ++ NL).
Proof.
  apply (substitute_lines_appends_newline
           ("hostname r1" ++ NL ++ "end") redact_user).
  intros line [<- | [<- | []]]; vm_compute; split; reflexivity.
Defined.

(** The [TypeError] is real: [(a)?b] matches [b] with a group that took no
    part. *)
Example substitute_unset_group_raises_type_error :
  _substitute_lines "b" [MkSubstitution (pattern "(a)?b") "x"]
  = Raise TypeError.
Proof. vm_compute. reflexivity. Qed.

End SubstitutionMore.

(* ================================================================== *)
(** * Removing whole lines: the pattern [^prefix.*\n] *)
(* ================================================================== *)

Section WholeLines.

Import Re.

Variable prefix : string.
Hypothesis prefix_newline_free : count_nl prefix = 0.


Lemma newline_free_cons c s :
  count_nl (String c s) = 0 -> Ascii.eqb c PyStr.newline = false /\ count_nl s = 0.
Proof.
  simpl. destruct (Ascii.eqb c PyStr.newline); [discriminate|]. auto.
Qed.

Lemma prefix_split (a s : string) :
  String.prefix a s = true -> exists more, s = a ++ more.
Proof.
  revert s. induction a as [|c a IH]; intros s H.
  - now exists s.
  - destruct s as [|d s]; [discriminate|]. simpl in H.
    destruct (ascii_dec c d) as [->|]; [|discriminate].
    apply IH in H. destruct H as [more ->]. now exists more.
Qed.

(** A prefix without a newline is looked for inside the line only. *)
Lemma prefix_in_line (a l more : string) :
  count_nl a = 0 -> count_nl l = 0 ->
  String.prefix a (l ++ NL ++ more) = String.prefix a l.
Proof.
  revert l. induction a as [|c a IH]; intros l Ha Hl; [now destruct l|].
  apply newline_free_cons in Ha. destruct Ha as [Hc Ha].
  destruct l as [|d l]; simpl.
  - destruct (ascii_dec c PyStr.newline) as [->|]; [|reflexivity].
    discriminate.
  - apply newline_free_cons in Hl. destruct Hl as [_ Hl].
    destruct (ascii_dec c d); [now apply IH | reflexivity].
Qed.

Lemma rmatch_lit_ok ml : forall a base p more caps k,
  rmatch ml (lit a) base (MState p (a ++ more) caps) k
  = k (MState (after p a) more caps).
Proof.
  induction a as [|c a IH]; intros base p more caps k; [reflexivity|].
  destruct a as [|d a].
  - simpl. now rewrite Ascii.eqb_refl.
  - change (lit (String c (String d a)))
      with (RSeq (RChar (CLit c)) (lit (String d a))).
    cbn [rmatch]. cbn [append rest charset_mem Re.caps].
    rewrite Ascii.eqb_refl. apply IH.
Qed.

Lemma rmatch_lit_fail ml : forall a base p text caps k,
  String.prefix a text = false ->
  rmatch ml (lit a) base (MState p text caps) k = None.
Proof.
  induction a as [|c a IH]; intros base p text caps k H.
  - destruct text; discriminate.
  - destruct text as [|d text].
    + destruct a; reflexivity.
    + simpl in H. destruct (ascii_dec c d) as [->|Hcd].
      * destruct a as [|e a]; [destruct text; discriminate|].
        change (lit (String d (String e a)))
          with (RSeq (RChar (CLit d)) (lit (String e a))).
        cbn [rmatch]. cbn [rest charset_mem Re.caps].
        rewrite Ascii.eqb_refl. now apply IH.
      * assert (Ascii.eqb d c = false) as Hne
            by (apply Ascii.eqb_neq; congruence).
        destruct a as [|e a].
        -- simpl. now rewrite Hne.
        -- change (lit (String c (String e a)))
             with (RSeq (RChar (CLit c)) (lit (String e a))).
           cbn [rmatch]. cbn [rest charset_mem]. now rewrite Hne.
Qed.

(** [.*\n] on the rest of a line: the repetition reads up to the newline,
    which is then read; no other way through succeeds. *)
Lemma rest_of_line ml base base' (kf : mstate -> option mstate) :
  forall l more p caps n,
    count_nl l = 0 -> String.length l < n ->
    repeat_loop (rmatch ml (RChar CAny) base)
                (fun s => rmatch ml (RChar (CLit PyStr.newline)) base' s kf)
                n (MState p (l ++ NL ++ more) caps)
    = kf (MState (Some PyStr.newline) more caps).
Proof.
  induction l as [|c l IH]; intros more p caps n Hl Hn.
  - destruct n as [|n]; reflexivity.
  - destruct n as [|n]; [simpl in Hn; lia|].
    apply newline_free_cons in Hl. destruct Hl as [Hc Hl].
    cbn [repeat_loop]. cbn [rmatch]. cbn [append rest charset_mem Re.caps].
    rewrite Hc. cbn [negb].
    replace (remaining (MState (Some c) (l ++ NL ++ more) caps)
             =? remaining (MState p (String c (l ++ NL ++ more)) caps))%nat
      with false
      by (unfold remaining; simpl; symmetry; apply Nat.eqb_neq; lia).
    rewrite IH by (simpl in Hn; auto with arith).
    destruct (kf (MState (Some PyStr.newline) more caps)); reflexivity.
Qed.

(** [.*\n] on a text without a newline fails. *)
Lemma rest_without_newline ml base base' (kf : mstate -> option mstate) :
  forall text p caps n,
    count_nl text = 0 ->
    repeat_loop (rmatch ml (RChar CAny) base)
                (fun s => rmatch ml (RChar (CLit PyStr.newline)) base' s kf)
                n (MState p text caps)
    = None.
Proof.
  induction text as [|c text IH]; intros p caps n Hl.
  - destruct n as [|n]; reflexivity.
  - apply newline_free_cons in Hl. destruct Hl as [Hc Hl].
    destruct n as [|n].
    + simpl. now rewrite Hc.
    + cbn [repeat_loop]. cbn [rmatch]. cbn [rest charset_mem Re.caps].
      rewrite Hc. cbn [negb].
      replace (remaining (MState (Some c) text caps)
               =? remaining (MState p (String c text) caps))%nat
        with false
        by (unfold remaining; simpl; symmetry; apply Nat.eqb_neq; lia).
      rewrite IH by exact Hl. reflexivity.
Qed.

Lemma rmatch_seq ml a b base s k :
  rmatch ml (RSeq a b) base s k
  = rmatch ml a base s (fun s1 => rmatch ml b (base + ngroups a) s1 k).
Proof. reflexivity. Qed.

Lemma rmatch_bol ml base s k :
  rmatch ml RBol base s k = if at_bol ml s then k s else None.
Proof. reflexivity. Qed.

Lemma rmatch_star ml a base s k :
  rmatch ml (RStar a) base s k
  = repeat_loop (rmatch ml a base) k (S (remaining s)) s.
Proof. reflexivity. Qed.

Lemma ngroups_lit (a : string) : ngroups (lit a) = 0.
Proof. induction a as [|c [|d a] IH]; simpl in *; auto. Qed.

Lemma at_line_start p text caps :
  line_start p -> at_bol true (MState p text caps) = true.
Proof. intros [-> | ->]; reflexivity. Qed.

(** At the start of a line that starts with the prefix, the pattern
    matches the line and its newline. *)
Lemma match_at_prefixed_line adv p l more :
  line_start p -> count_nl l = 0 -> String.prefix prefix l = true ->
  match_at true (line_with_prefix prefix) adv p (l ++ NL ++ more)
  = Some (MState (Some PyStr.newline) more []).
Proof.
  intros Hp Hl Hpre. apply prefix_split in Hpre. destruct Hpre as [l' ->].
  assert (count_nl l' = 0) as Hl'
      by (rewrite count_nl_append in Hl; lia).
  unfold match_at, line_with_prefix.
  rewrite rmatch_seq, rmatch_bol, at_line_start by exact Hp.
  cbn [ngroups]. rewrite ngroups_lit. cbn [repeat Nat.add].
  rewrite rmatch_seq, append_assoc, rmatch_lit_ok.
  rewrite rmatch_seq, rmatch_star.
  rewrite rest_of_line
    by (try exact Hl'; unfold remaining; simpl;
        rewrite length_append; lia).
  unfold remaining. cbn [rest].
  replace (String.length more
           =? String.length (prefix ++ l' ++ NL ++ more))%nat with false.
  - now rewrite andb_false_r.
  - symmetry. apply Nat.eqb_neq. rewrite !length_append. simpl. lia.
Qed.

(** Elsewhere the pattern does not match. *)
Lemma match_at_other_line adv p l more :
  count_nl l = 0 -> String.prefix prefix l = false ->
  match_at true (line_with_prefix prefix) adv p (l ++ NL ++ more) = None.
Proof.
  intros Hl Hpre. unfold match_at, line_with_prefix.
  rewrite rmatch_seq, rmatch_bol.
  destruct (at_bol true _); [|reflexivity].
  rewrite rmatch_seq. apply rmatch_lit_fail. now rewrite prefix_in_line.
Qed.

Lemma match_at_inside_line adv c text :
  Ascii.eqb c PyStr.newline = false ->
  match_at true (line_with_prefix prefix) adv (Some c) text = None.
Proof.
  intros Hc. unfold match_at, line_with_prefix.
  rewrite rmatch_seq, rmatch_bol.
  unfold at_bol. cbn [prev]. now rewrite Hc.
Qed.

Lemma match_at_last_line adv p text :
  count_nl text = 0 -> match_at true (line_with_prefix prefix) adv p text = None.
Proof.
  intros Hl. unfold match_at, line_with_prefix.
  rewrite rmatch_seq, rmatch_bol.
  destruct (at_bol true _); [|reflexivity].
  rewrite rmatch_seq.
  destruct (String.prefix prefix text) eqn:Hpre.
  - apply prefix_split in Hpre. destruct Hpre as [l' ->].
    rewrite rmatch_lit_ok, rmatch_seq, rmatch_star.
    apply rest_without_newline.
    rewrite count_nl_append in Hl. lia.
  - now apply rmatch_lit_fail.
Qed.

(** ** The search, line by line *)

Lemma search_inside_line : forall l c adv more,
  count_nl l = 0 -> Ascii.eqb c PyStr.newline = false ->
  search_from true (line_with_prefix prefix) adv (Some c) (l ++ NL ++ more)
  = skip_more (l ++ NL) (search_from true (line_with_prefix prefix) false (Some PyStr.newline) more).
Proof.
  induction l as [|d l IH]; intros c adv more Hl Hc.
  - cbn [append NL search_from]. rewrite match_at_inside_line by exact Hc.
    destruct (search_from true (line_with_prefix prefix) false (Some PyStr.newline) more)
      as [[sk st]|]; reflexivity.
  - apply newline_free_cons in Hl. destruct Hl as [Hd Hl].
    cbn [append search_from]. rewrite match_at_inside_line by exact Hc.
    rewrite (IH d false more Hl Hd).
    destruct (search_from true (line_with_prefix prefix) false (Some PyStr.newline) more)
      as [[sk st]|]; reflexivity.
Qed.

Lemma search_other_line l adv p more :
  count_nl l = 0 -> String.prefix prefix l = false ->
  search_from true (line_with_prefix prefix) adv p (l ++ NL ++ more)
  = skip_more (l ++ NL) (search_from true (line_with_prefix prefix) false (Some PyStr.newline) more).
Proof.
  intros Hl Hpre.
  pose proof (match_at_other_line adv p l more Hl Hpre) as Hm.
  destruct l as [|d l].
  - cbn [append NL search_from] in *. rewrite Hm.
    destruct (search_from true (line_with_prefix prefix) false (Some PyStr.newline) more)
      as [[sk st]|]; reflexivity.
  - apply newline_free_cons in Hl. destruct Hl as [Hd Hl].
    cbn [append search_from] in *. rewrite Hm.
    rewrite (search_inside_line l d false more Hl Hd).
    destruct (search_from true (line_with_prefix prefix) false (Some PyStr.newline) more)
      as [[sk st]|]; reflexivity.
Qed.

Lemma search_prefixed_line l adv p more :
  line_start p -> count_nl l = 0 -> String.prefix prefix l = true ->
  search_from true (line_with_prefix prefix) adv p (l ++ NL ++ more)
  = Some (EmptyString, MState (Some PyStr.newline) more []).
Proof.
  intros Hp Hl Hpre.
  pose proof (match_at_prefixed_line adv p l more Hp Hl Hpre) as Hm.
  destruct (l ++ NL ++ more); simpl; now rewrite Hm.
Qed.

Lemma search_last_line : forall text adv p,
  count_nl text = 0 -> search_from true (line_with_prefix prefix) adv p text = None.
Proof.
  induction text as [|c text IH]; intros adv p Hl.
  - cbn [search_from]. now rewrite match_at_last_line.
  - cbn [search_from]. rewrite match_at_last_line by exact Hl.
    apply newline_free_cons in Hl. destruct Hl as [_ Hl].
    now rewrite IH.
Qed.

(** ** The substitution, line by line *)

Lemma text_of_lines_cons l lines last :
  text_of_lines (l :: lines) ++ last = l ++ NL ++ (text_of_lines lines ++ last).
Proof. unfold text_of_lines. simpl. now rewrite !append_assoc. Qed.

Lemma sub_lines : forall lines last,
  Forall (fun l => count_nl l = 0) lines -> count_nl last = 0 ->
  forall fuel adv p,
    line_start p ->
    sub_measure adv (text_of_lines lines ++ last) < fuel ->
    sub_loop fuel true (line_with_prefix prefix) EmptyString adv p (text_of_lines lines ++ last)
    = text_of_lines (without_prefix prefix lines) ++ last.
Proof.
  induction lines as [|l lines IH]; intros last Hls Hlast fuel adv p Hp Hf.
  - destruct fuel as [|fuel]; [reflexivity|].
    rewrite sub_loop_step. simpl. now rewrite search_last_line.
  - inversion Hls as [|? ? Hl Hls']; subst.
    destruct fuel as [|fuel]; [lia|].
    rewrite text_of_lines_cons in *. rewrite sub_loop_step.
    unfold without_prefix. cbn [filter].
    destruct (String.prefix prefix l) eqn:Hpre; cbn [negb].
    + pose proof (search_prefixed_line l adv p
                    (text_of_lines lines ++ last) Hp Hl Hpre) as Hs.
      pose proof (search_from_measure _ _ _ _ _ _ _ Hs) as Hm.
      rewrite Hs. cbn [rest prev] in *.
      cbn [append]. apply IH; try assumption; [now right | lia].
    + rewrite search_other_line by assumption.
      assert (sub_measure false (text_of_lines lines ++ last) < S fuel) as Hf'.
      { unfold sub_measure in Hf |- *.
        rewrite !length_append in Hf. rewrite !length_append.
        change (String.length NL) with 1 in Hf. destruct adv; lia. }
      pose proof (IH last Hls' Hlast (S fuel) false (Some PyStr.newline)
                     (or_intror eq_refl) Hf') as Htail.
      rewrite sub_loop_step in Htail.
      destruct (search_from true (line_with_prefix prefix) false (Some PyStr.newline)
                            (text_of_lines lines ++ last))
        as [[sk st]|] eqn:Hs; cbn [skip_more].
      * fold (without_prefix prefix lines).
        rewrite text_of_lines_cons, <- Htail.
        replace (String.length (l ++ NL ++ text_of_lines lines ++ last)
                 - String.length ((l ++ NL) ++ sk))
          with (String.length (text_of_lines lines ++ last)
                - String.length sk)
          by (rewrite !length_append; lia).
        now rewrite !append_assoc.
      * fold (without_prefix prefix lines).
        now rewrite text_of_lines_cons, <- Htail.
Qed.

(** X4: with the pattern [^prefix.*\n], for a literal prefix without a
    newline, [_remove_lines] removes whole lines: every line that starts
    with the prefix and is closed by a newline goes away with its newline,
    every other line stays as it is, in order; a last line that no newline
    closes stays even when it starts with the prefix. *)
Theorem remove_lines_drops_prefixed_lines (lines : list string) (last : string) :
  Forall (fun l => count_nl l = 0) lines -> count_nl last = 0 ->
  _remove_lines (text_of_lines lines ++ last) [line_with_prefix prefix]
  = text_of_lines (without_prefix prefix lines) ++ last.
Proof.
  intros Hls Hlast. cbn [_remove_lines]. unfold sub.
  apply sub_lines; [exact Hls | exact Hlast | now left |].
  unfold sub_measure. lia.
Qed.

End WholeLines.

Section WholeLinesAtSamples.

Import Re.
Import Samples.

(** Every text is made of lines closed by a newline and of a last line
    that is not. *)
Lemma text_as_lines (s : string) :
  exists lines last,
    s = text_of_lines lines ++ last
    /\ Forall (fun l => count_nl l = 0) lines /\ count_nl last = 0.
Proof.
  induction s as [|c s (lines & last & -> & Hls & Hlast)].
  - exists [], EmptyString. repeat split. constructor.
  - destruct (Ascii.eqb c PyStr.newline) eqn:Hc.
    + apply Ascii.eqb_eq in Hc. subst c.
      exists (EmptyString :: lines), last. repeat split; [|exact Hlast].
      constructor; [reflexivity | exact Hls].
    + destruct lines as [|l lines].
      * exists [], (String c last). repeat split; [constructor|].
        simpl. now rewrite Hc.
      * inversion Hls; subst.
        exists (String c l :: lines), last. repeat split; [|exact Hlast].
        constructor; [simpl; now rewrite Hc | assumption].
Qed.

Lemma comment_line_compiled : comment_line = line_with_prefix "!".
Proof. reflexivity. Qed.

Lemma remove_lines_drops_prefixed_lines_witness :
  _remove_lines
    (text_of_lines ["hostname r1"; "! last change"; "!"; " ! kept"; "end"]
     ++ "! not closed")
    [comment_line]
  = text_of_lines ["hostname r1"; " ! kept"; "end"] ++ "! not closed".
Proof.
  apply (remove_lines_drops_prefixed_lines
           "!" eq_refl
           ["hostname r1"; "! last change"; "!"; " ! kept"; "end"]
           "! not closed").
  - repeat constructor.
  - reflexivity.
Defined.

End WholeLinesAtSamples.

(* ================================================================== *)
(** * More on the operations *)
(* ================================================================== *)

Section OperationsMore.

Variable E : collaborators.

(** ** Logs of debug messages *)

Lemma storage_calls_app (t u : list event) :
  storage_calls (t ++ u) = (storage_calls t ++ storage_calls u)%list.
Proof. apply filter_app. Qed.

Lemma count_runs_app (t u : list event) :
  count_runs (t ++ u) = count_runs t + count_runs u.
Proof.
  induction t as [|e t IH]; simpl; [reflexivity|].
  destruct e; simpl; rewrite IH; reflexivity.
Qed.

Lemma debug_log_quiet (msgs : list string) :
  storage_calls (debug_log msgs) = []
  /\ writes (debug_log msgs) = []
  /\ count_runs (debug_log msgs) = 0
  /\ count_log_failure (debug_log msgs) = 0
  /\ count_compliance (debug_log msgs) = 0.
Proof. induction msgs as [|m msgs IH]; simpl; auto. Qed.

(** ** The tails *)

Lemma save_ends file host text :
  tail_end file host [] (save_and_return E file host text).
Proof.
  unfold save_and_return, save, do_make_folder, do_open_w.
  destruct (make_folder_raises E (PyStr.dirname file)) as [e|];
    [apply (tail_make_folder_raises file host [] e)|].
  destruct (open_raises E file) as [e|];
    [apply (tail_open_raises file host [] e)|].
  destruct text as [t|].
  - apply (tail_written file host [] t).
  - apply (tail_write_none file host []).
Qed.

Lemma tail_end_after file host msgs m :
  tail_end file host [] m ->
  tail_end file host msgs ((debug_log msgs ++ trace m)%list, outcome m).
Proof.
  intros H. inversion H; subst; simpl.
  - rewrite app_nil_r. now constructor.
  - constructor.
  - constructor.
  - constructor.
  - constructor.
Qed.

Lemma substitute_lines_raises config items :
  match _substitute_lines config items with
  | Ok _ => True
  | Raise e => e = IndexError \/ e = TypeError \/ e = AttributeError
  end.
Proof.
  unfold _substitute_lines. destruct (nonempty items); [|exact I].
  pose proof (substitute_each_raises items (PyStr.split_nl config) EmptyString)
    as H.
  destruct (substitute_each _ items EmptyString) as [c|e]; [exact I|].
  destruct e; try contradiction; auto.
Qed.

Lemma sanitize_ends rc remove_lines substitute_lines :
  exists msgs r,
    sanitize rc remove_lines substitute_lines = (debug_log msgs, r)
    /\ match r with
       | Ok _ => True
       | Raise e => e = IndexError \/ e = TypeError \/ e = AttributeError
       end.
Proof.
  unfold sanitize.
  destruct remove_lines as [|p ps], substitute_lines as [|i more], rc as [raw|];
    cbn -[_substitute_lines _remove_lines].
  - exists [], (Ok (Some raw)). split; [reflexivity | exact I].
  - exists [], (Ok None). split; [reflexivity | exact I].
  - pose proof (substitute_lines_raises raw (i :: more)) as Hr.
    destruct (_substitute_lines raw (i :: more)) as [c|e];
      eexists [_], _; (split; [reflexivity | exact Hr]).
  - eexists [_], _. split; [reflexivity | simpl; auto].
  - eexists [_], _. split; [reflexivity | exact I].
  - eexists [_], _. split; [reflexivity | simpl; auto].
  - pose proof (substitute_lines_raises (_remove_lines raw (p :: ps))
                                        (i :: more)) as Hr.
    destruct (_substitute_lines (_remove_lines raw (p :: ps)) (i :: more))
      as [c|e]; eexists [_; _], _; (split; [reflexivity | exact Hr]).
  - eexists [_], _. split; [reflexivity | simpl; auto].
Qed.

Lemma sanitize_and_save_ends file host rc remove_lines substitute_lines :
  exists msgs,
    tail_end file host msgs
      (sanitize_and_save E file host rc remove_lines substitute_lines).
Proof.
  destruct (sanitize_ends rc remove_lines substitute_lines)
    as (msgs & r & Hs & Hr).
  exists msgs. unfold sanitize_and_save. rewrite Hs.
  destruct r as [rc'|e].
  - change (fun running_config : option string =>
              written <- save E file running_config ;;
              ret (MkResult host (Config written)))
      with (fun rc'' => save_and_return E file host rc'').
    unfold bind.
    pose proof (tail_end_after file host msgs _ (save_ends file host rc')) as H.
    destruct (save_and_return E file host rc') as [t r]. exact H.
  - now constructor.
Qed.

(** ** The ends of [get_config] and of [generate_config] *)

Lemma get_config_ends (d : driver) (task : Host) (obj file : string)
      (remove_lines : list Re.regex) (substitute_lines : list substitution) :
  get_config_end d obj file (name task) (get_config_head d task)
    (get_config_of d E task obj file remove_lines substitute_lines).
Proof.
  destruct d; cbn [get_config_of].
  - unfold NautobotNornirDriver.get_config.
    destruct (napalm_get E task) as [[exc|e]|r0].
    + apply (end_signalled Napalm obj file (name task)
                           (get_config_head Napalm task)).
    + apply (end_uncaught Napalm obj file (name task)
                          (get_config_head Napalm task)).
    + destruct (failed r0).
      * now apply (end_failed_logged Napalm obj file (name task)
                                     (get_config_head Napalm task)).
      * destruct (sanitize_and_save_ends
                    file (name task) (running_of (result r0))
                    remove_lines substitute_lines) as [msgs Ht].
        unfold sanitize_and_save, running_of in Ht.
        match type of Ht with
        | tail_end _ _ _ ?m => destruct m as [t r]
        end.
        apply (end_tail Napalm obj file (name task)
                        (get_config_head Napalm task) msgs t r Ht).
  - unfold NetmikoNautobotNornirDriver.get_config.
    fold (run_command (platform task)).
    destruct (netmiko_send_command E task (run_command (platform task)))
      as [[exc|e]|r0].
    + destruct (isinstance exc NetmikoAuthenticationException);
        [|destruct (isinstance exc NetmikoTimeoutException)];
        apply (end_signalled Netmiko obj file (name task)
                             (get_config_head Netmiko task)).
    + apply (end_uncaught Netmiko obj file (name task)
                          (get_config_head Netmiko task)).
    + destruct (failed r0).
      * now apply (end_failed Netmiko obj file (name task)
                              (get_config_head Netmiko task)).
      * destruct (PyStr.contains NetmikoNautobotNornirDriver.INVALID_INPUT
                                 (result r0)).
        -- apply (end_signalled Netmiko obj file (name task)
                                (get_config_head Netmiko task)).
        -- destruct (sanitize_and_save_ends
                       file (name task) (Some (result r0))
                       remove_lines substitute_lines) as [msgs Ht].
           unfold sanitize_and_save in Ht. cbn [when].
           match type of Ht with
           | tail_end _ _ _ ?m => destruct m as [t r]
           end.
           apply (end_tail Netmiko obj file (name task)
                           (get_config_head Netmiko task) msgs t r Ht).
Qed.

Lemma generate_config_ends (task : Host) (obj template path file : string) :
  generate_config_end obj file (name task) [run_template_file template path]
    (NautobotNornirDriver.generate_config E task obj template path file).
Proof.
  unfold NautobotNornirDriver.generate_config.
  destruct (template_file E task template path) as [[exc|e]|r0].
  - destruct (isinstance exc UndefinedError);
      [|destruct (isinstance exc TemplateSyntaxError);
        [|destruct (isinstance exc TemplateNotFound);
          [|destruct (isinstance exc TemplateError)]]];
      try apply (gen_signalled obj file (name task)
                               [run_template_file template path]).
    apply (gen_reraised obj file (name task)
                        [run_template_file template path]).
  - apply (gen_uncaught obj file (name task)
                        [run_template_file template path]).
  - pose proof (save_ends file (name task) (Some (result r0))) as Ht.
    unfold save_and_return in Ht.
    match type of Ht with
    | tail_end _ _ _ ?m => destruct m as [t r]
    end.
    apply (gen_tail obj file (name task)
                    [run_template_file template path] t r Ht).
Qed.

End OperationsMore.

(* ================================================================== *)
(** * More on the operations: what they return, log and store *)
(* ================================================================== *)

Section OperationsFacts.

Import Samples.

Variable E : collaborators.

Lemma check_connectivity_ends (task : Host) (obj : string) :
  check_connectivity_end E task obj
    (NautobotNornirDriver.check_connectivity E task obj).
Proof.
  unfold NautobotNornirDriver.check_connectivity.
  destruct (is_ip E (hostname task)) eqn:Hip.
  - cbn -[append str_of_nat].
    destruct (test_tcp_port E (hostname task) 22); [|cbn; constructor].
    destruct (truthy (username task)); [|cbn; constructor].
    destruct (truthy (password task)); cbn; constructor.
  - destruct (hostname_resolves E (hostname task)) eqn:Hres;
      [|cbn; constructor].
    destruct (gethostbyname E (hostname task)) as [e|ip] eqn:Hgh.
    + cbn. now apply check_resolver_raised.
    + cbn -[append str_of_nat].
      destruct (test_tcp_port E ip 22); [|cbn; constructor].
      destruct (truthy (username task)); [|cbn; constructor].
      destruct (truthy (password task)); cbn; constructor.
Qed.

(** X14: [check_connectivity] ends in one of three ways: it passes, with no
    payload and nothing logged; or it logs one failure and raises
    [NornirNautobotException] with the message it logged; or, when the name
    is accepted by [hostname_resolves] and [gethostbyname] raises all the
    same, that exception leaves the check, not logged.  It makes no other
    call. *)
Theorem check_connectivity_three_ends (d : driver) (task : Host) (obj : string) :
  let m := run E (CheckConnectivity d task obj) in
  m = ([], Ok (MkResult (name task) NoPayload))
  \/ (exists msg,
         m = ([log_failure obj msg], Raise (NornirNautobotException (Some msg))))
  \/ (exists e,
         is_ip E (hostname task) = false
         /\ hostname_resolves E (hostname task) = true
         /\ gethostbyname E (hostname task) = inl e
         /\ m = ([], Raise (Uncaught e))).
Proof.
  assert (run E (CheckConnectivity d task obj)
          = NautobotNornirDriver.check_connectivity E task obj) as ->
      by (destruct d; reflexivity).
  cbv zeta. pose proof (check_connectivity_ends task obj) as H.
  inversion H as [Hm | msg Hm | e H1 H2 H3 Hm].
  - now left.
  - right. left. now exists msg.
  - right. right. now exists e.
Qed.

(** X16: [compliance_config] calls the comparison engine once when both
    files exist and not at all otherwise; it returns what the engine
    returned, unchanged, and every other end is [NornirNautobotException]
    without a message. *)
Theorem compliance_config_calls_engine_once
        (task : Host) (obj features backup_file intended_file platform : string) :
  let m := NautobotNornirDriver.compliance_config
             E task obj features backup_file intended_file platform in
  count_compliance (trace m)
  = (if path_exists E backup_file && path_exists E intended_file
     then 1 else 0)
  /\ match outcome m with
     | Ok r =>
         exists feature_data,
           compliance_engine E features backup_file intended_file platform
           = inr feature_data
           /\ r = MkResult (name task) (FeatureData feature_data)
     | Raise e => e = NornirNautobotException None
     end.
Proof.
  cbv zeta. unfold NautobotNornirDriver.compliance_config.
  destruct (path_exists E backup_file); [|split; reflexivity].
  destruct (path_exists E intended_file); [|split; reflexivity].
  destruct (compliance_engine E features backup_file intended_file platform)
    as [e|fd]; cbn; split; try reflexivity.
  now exists fd.
Qed.


(** X13: when the result of the napalm sub-task holds no running
    configuration, [get_config] never writes and never logs a failure: with
    removal patterns it raises [TypeError] and with substitution rules only
    [AttributeError], both before any storage call; without rules it makes
    the folder, opens the backup file and raises [TypeError] on the
    write. *)
Theorem get_config_without_running_config
        (task : Host) (obj file : string)
        (remove_lines : list Re.regex) (substitute_lines : list substitution)
        (r0 : sub_result (option (option string))) :
  napalm_get E task = inr r0 ->
  failed r0 = false ->
  running_of (result r0) = None ->
  let m := NautobotNornirDriver.get_config
             E task obj file remove_lines substitute_lines in
  writes (trace m) = []
  /\ count_log_failure (trace m) = 0
  /\ match remove_lines, substitute_lines with
     | _ :: _, _ => outcome m = Raise TypeError /\ storage_calls (trace m) = []
     | [], _ :: _ =>
         outcome m = Raise AttributeError /\ storage_calls (trace m) = []
     | [], [] =>
         match make_folder_raises E (PyStr.dirname file), open_raises E file with
         | None, None =>
             outcome m = Raise TypeError
             /\ storage_calls (trace m)
                = [make_folder (PyStr.dirname file); open_w file]
         | Some e, _ =>
             outcome m = Raise (Uncaught e)
             /\ storage_calls (trace m) = [make_folder (PyStr.dirname file)]
         | None, Some e =>
             outcome m = Raise (Uncaught e)
             /\ storage_calls (trace m)
                = [make_folder (PyStr.dirname file); open_w file]
         end
     end.
Proof.
  intros Hn Hf Hr. cbv zeta. unfold NautobotNornirDriver.get_config.
  rewrite Hn, Hf. unfold running_of in Hr.
  replace (match result r0 with
           | Some (Some running) => Some running
           | _ => None
           end) with (@None string).
  destruct remove_lines as [|p ps], substitute_lines as [|i more];
    unfold save, do_make_folder, do_open_w;
    try (cbn -[_substitute_lines _remove_lines]; repeat split; fail).
  destruct (make_folder_raises E (PyStr.dirname file)) as [e|];
    [cbn; repeat split|].
  destruct (open_raises E file) as [e|]; cbn; repeat split.
Qed.



End OperationsFacts.

(* ================================================================== *)
(** * More on the operations: what every run keeps to *)
(* ================================================================== *)

Section RunInvariants.

Import Samples.

Variable E : collaborators.

Lemma run_get_config d task obj f rl sl :
  run E (GetConfig d task obj f rl sl) = get_config_of d E task obj f rl sl.
Proof. reflexivity. Qed.

Lemma run_check_connectivity d task obj :
  run E (CheckConnectivity d task obj)
  = NautobotNornirDriver.check_connectivity E task obj.
Proof. destruct d; reflexivity. Qed.

Lemma run_compliance_config d task obj f b i p :
  run E (ComplianceConfig d task obj f b i p)
  = NautobotNornirDriver.compliance_config E task obj f b i p.
Proof. destruct d; reflexivity. Qed.

Lemma run_generate_config d task obj t r o :
  run E (GenerateConfig d task obj t r o)
  = NautobotNornirDriver.generate_config E task obj t r o.
Proof. destruct d; reflexivity. Qed.

Lemma get_config_head_quiet d task :
  storage_calls (get_config_head d task) = []
  /\ count_runs (get_config_head d task) = 1
  /\ count_log_failure (get_config_head d task) = 0.
Proof. destruct d; repeat split. Qed.

(** What a tail has stored and run. *)
Lemma tail_end_storage file host msgs t r :
  tail_end file host msgs (t, r) ->
  count_runs t = 0
  /\ ((storage_prefix file (storage_calls t) /\ surfaces_failure r = true)
      \/ exists text,
           storage_calls t
           = [make_folder (PyStr.dirname file); open_w file; write file text]
           /\ r = Ok (MkResult host (Config text))).
Proof.
  destruct (debug_log_quiet msgs) as (Q1 & _ & Q2 & _ & _).
  intros H. inversion H; subst;
    rewrite ?storage_calls_app, ?count_runs_app, ?Q1, ?Q2;
    (split; [reflexivity|]).
  - left. split; [now left | reflexivity].
  - left. split; [right; now left | reflexivity].
  - left. split; [right; now right | reflexivity].
  - left. split; [right; now right | reflexivity].
  - right. now exists text.
Qed.


(** X18: [get_config] and [generate_config] run exactly one sub-task on
    every path, whatever its answer; [check_connectivity] and
    [compliance_config] run none. *)
Theorem sub_tasks_of_a_run (o : operation) :
  count_runs (trace (run E o))
  = match o with
    | GetConfig _ _ _ _ _ _ | GenerateConfig _ _ _ _ _ _ => 1
    | CheckConnectivity _ _ _ | ComplianceConfig _ _ _ _ _ _ _ => 0
    end.
Proof.
  destruct o as [d task obj f rl sl | d task obj
                 | d task obj ft b i p | d task obj t r f].
  - rewrite run_get_config.
    destruct (get_config_head_quiet d task) as (_ & Q1 & _).
    pose proof (get_config_ends E d task obj f rl sl) as H.
    remember (get_config_head d task) as head eqn:Hhead.
    inversion H as [msg Hm | e Hm | msg x Hd Hm | x Hd Hm | msgs t' r' Ht Hm];
      cbn [trace fst]; rewrite ?count_runs_app, ?Q1; try reflexivity.
    apply tail_end_storage in Ht. destruct Ht as [-> _]. reflexivity.
  - rewrite run_check_connectivity.
    pose proof (check_connectivity_ends E task obj) as H.
    inversion H; reflexivity.
  - rewrite run_compliance_config.
    unfold NautobotNornirDriver.compliance_config.
    destruct (path_exists E b); [|reflexivity].
    destruct (path_exists E i); [|reflexivity].
    destruct (compliance_engine E ft b i p); reflexivity.
  - rewrite run_generate_config.
    pose proof (generate_config_ends E task obj t r f) as H.
    inversion H as [msg Hm | exc Hm | e Hm | t' r' Ht Hm];
      cbn [trace fst]; try reflexivity.
    apply tail_end_storage in Ht. destruct Ht as [Ht _].
    cbn [count_runs]. now rewrite Ht.
Qed.

Lemma tail_end_not_signal file host msgs t r :
  tail_end file host msgs (t, r) -> is_NornirNautobotException r = false.
Proof.
  intros H. inversion H as [e [-> | [-> | ->]] | | | | ]; reflexivity.
Qed.

(** X12: the reason of a failure is in the exception only for
    [check_connectivity], which raises [NornirNautobotException] with the
    very message it logged; every other operation raises it without
    arguments, so that the reason is in the log alone. *)
Theorem failure_signal_arguments (o : operation) (args : option string) :
  outcome (run E o) = Raise (NornirNautobotException args) ->
  match o with
  | CheckConnectivity _ _ obj =>
      exists msg, args = Some msg /\ trace (run E o) = [log_failure obj msg]
  | _ => args = None
  end.
Proof.
  destruct o as [d task obj f rl sl | d task obj
                 | d task obj ft b i p | d task obj t r f].
  - rewrite run_get_config.
    pose proof (get_config_ends E d task obj f rl sl) as H.
    inversion H as [msg Hm | e Hm | msg x Hd Hm | x Hd Hm | msgs t' r' Ht Hm];
      cbn [outcome snd]; try congruence.
    apply tail_end_not_signal in Ht. intros ->. discriminate.
  - rewrite run_check_connectivity.
    pose proof (check_connectivity_ends E task obj) as H.
    inversion H as [Hm | msg Hm | e H1 H2 H3 Hm]; cbn [outcome trace fst snd];
      try discriminate.
    intros [= <-]. now exists msg.
  - rewrite run_compliance_config.
    unfold NautobotNornirDriver.compliance_config.
    destruct (path_exists E b); [|cbn; congruence].
    destruct (path_exists E i); [|cbn; congruence].
    destruct (compliance_engine E ft b i p); cbn; congruence.
  - rewrite run_generate_config.
    pose proof (generate_config_ends E task obj t r f) as H.
    inversion H as [msg Hm | exc Hm | e Hm | t' r' Ht Hm];
      cbn [outcome snd]; try congruence.
    apply tail_end_not_signal in Ht. intros ->. discriminate.
Qed.

(** The command for a platform: the table has one entry that differs from
    its default. *)
Lemma run_command_cases (platform : option string) :
  run_command platform
  = if is_juniper_junos platform
    then "show configuration | display set" else "show run".
Proof.
  destruct platform as [p|]; [|reflexivity].
  unfold run_command, dict_item, is_juniper_junos.
  cbn -[String.eqb].
  rewrite (String.eqb_sym p "juniper_junos").
  repeat match goal with
         | |- context [String.eqb ?a p] =>
             destruct (String.eqb a p) eqn:?; try reflexivity
         end;
    match goal with
    | H : String.eqb _ p = true |- _ =>
        apply String.eqb_eq in H; subst p; discriminate
    end.
Qed.

(** X19: the CLI [get_config] sends one command, right after its debug
    message and whatever follows: [show configuration | display set] when
    the platform is [juniper_junos], and [show run] for every other
    platform, the unknown ones and a host without platform included. *)
Theorem get_config_sends_one_command
        (task : Host) (obj file : string)
        (remove_lines : list Re.regex) (substitute_lines : list substitution) :
  exists rest,
    trace (NetmikoNautobotNornirDriver.get_config
             E task obj file remove_lines substitute_lines)
    = log_debug ("Executing get_config for " ++ name task ++ " on "
                 ++ str_of (platform task))
      :: run_netmiko_send_command
           (if is_juniper_junos (platform task)
            then "show configuration | display set" else "show run")
      :: rest
    /\ count_runs rest = 0.
Proof.
  rewrite <- run_command_cases.
  pose proof (get_config_ends E Netmiko task obj file
                              remove_lines substitute_lines) as H.
  cbn [get_config_of] in H.
  inversion H as [msg Hm | e Hm | msg x Hd Hm | x Hd Hm | msgs t' r' Ht Hm];
    cbn [trace fst get_config_head run_event app].
  - now eexists.
  - now exists [].
  - discriminate.
  - now exists [].
  - exists t'. split; [reflexivity|].
    now apply tail_end_storage in Ht.
Qed.

End RunInvariants.

(* ================================================================== *)
(** * The further properties at the sample inputs *)
(* ================================================================== *)

Section MoreAtSamples.

Import Samples.
Import MoreSamples.

Lemma failure_signal_arguments_witness :
  outcome (run (device EmptyString)
               (CheckConnectivity Netmiko r1_no_password "obj"))
  = Raise (NornirNautobotException
             (Some "There was no password defined, preemptively failed."))
  /\ exists msg,
       Some "There was no password defined, preemptively failed." = Some msg
       /\ trace (run (device EmptyString)
                     (CheckConnectivity Netmiko r1_no_password "obj"))
          = [log_failure "obj" msg].
Proof.
  split; [reflexivity|].
  apply (failure_signal_arguments
           (device EmptyString)
           (CheckConnectivity Netmiko r1_no_password "obj")
           (Some "There was no password defined, preemptively failed.")).
  reflexivity.
Defined.

Lemma get_config_without_running_config_witness :
  let m := NautobotNornirDriver.get_config
             napalm_without_running r1 "obj" "/backups/r1.cfg" [] [] in
  writes (trace m) = []
  /\ count_log_failure (trace m) = 0
  /\ outcome m = Raise TypeError
  /\ storage_calls (trace m)
     = [make_folder "/backups"; open_w "/backups/r1.cfg"].
Proof.
  exact (get_config_without_running_config
           napalm_without_running r1 "obj" "/backups/r1.cfg" [] []
           (SubResult false EmptyString (Some None))
           eq_refl eq_refl eq_refl).
Defined.



End MoreAtSamples.

(* ================================================================== *)
(** * Patterns that match the empty string only; the empty text *)
(* ================================================================== *)

Section ZeroWidth.

Import Re.
Import Samples.

Lemma repeat_loop_reads_nothing body k :
  reads_nothing body ->
  forall n s0 x, repeat_loop body k n s0 = Some x ->
                 exists s', k s' = Some x /\ rest s' = rest s0.
Proof.
  intros Hbody. induction n as [|n IH]; intros s0 x H; simpl in H.
  - now exists s0.
  - apply orelse_some in H. destruct H as [H | [_ H]]; [|now exists s0].
    apply Hbody in H. destruct H as (s1 & H & R1).
    destruct (remaining s1 =? remaining s0)%nat.
    + now exists s1.
    + apply IH in H. destruct H as (s' & H & R2).
      exists s'. split; [exact H | congruence].
Qed.

Lemma rmatch_zero_width ml r :
  zero_width r = true -> forall base, reads_nothing (rmatch ml r base).
Proof.
  induction r as [|cs|a IHa b IHb|a IHa b IHb|a IHa|a IHa|a IHa|a IHa| |];
    intros Hz base s k x H; cbn [zero_width] in Hz; cbn [rmatch] in H;
    try discriminate;
    try (apply andb_true_iff in Hz; destruct Hz as [Ha Hb]).
  - now exists s.
  - apply (IHa Ha) in H. destruct H as (s1 & H & R1).
    apply (IHb Hb) in H. destruct H as (s2 & H & R2).
    exists s2. split; [exact H | congruence].
  - apply orelse_some in H. destruct H as [H | [_ H]].
    + now apply (IHa Ha) in H.
    + now apply (IHb Hb) in H.
  - eapply repeat_loop_reads_nothing; [apply (IHa Hz) | exact H].
  - apply (IHa Hz) in H. destruct H as (s1 & H & R1).
    eapply repeat_loop_reads_nothing in H; [|apply (IHa Hz)].
    destruct H as (s2 & H & R2). exists s2. split; [exact H | congruence].
  - apply orelse_some in H. destruct H as [H | [_ H]]; [|now exists s].
    now apply (IHa Hz) in H.
  - apply (IHa Hz) in H. destruct H as (s1 & H & R1).
    eexists. split; [exact H | exact R1].
  - destruct (at_bol ml s); [now exists s | discriminate].
  - destruct (at_eol ml s); [now exists s | discriminate].
Qed.

Lemma search_zero_width ml r :
  zero_width r = true ->
  forall text adv p skipped s',
    search_from ml r adv p text = Some (skipped, s') ->
    text = skipped ++ rest s'.
Proof.
  intros Hz. induction text as [|c text IH]; intros adv p skipped s' H;
    simpl in H.
  - destruct (match_at ml r adv p EmptyString) as [s0|] eqn:Hm;
      [|discriminate].
    injection H as <- <-. unfold match_at in Hm.
    apply (rmatch_zero_width ml r Hz) in Hm. destruct Hm as (s1 & Hm & R).
    destruct (adv && _); [discriminate|]. injection Hm as <-.
    simpl in R. now rewrite R.
  - destruct (match_at ml r adv p (String c text)) as [s0|] eqn:Hm.
    + injection H as <- <-. unfold match_at in Hm.
      apply (rmatch_zero_width ml r Hz) in Hm. destruct Hm as (s1 & Hm & R).
      destruct (adv && _); [discriminate|]. injection Hm as <-.
      simpl in R. now rewrite R.
    + destruct (search_from ml r false (Some c) text) as [[sk s1]|] eqn:Hs;
        [|discriminate].
      injection H as <- <-. apply IH in Hs. simpl. now rewrite <- Hs.
Qed.

Lemma sub_loop_zero_width ml r :
  zero_width r = true ->
  forall fuel adv p text,
    sub_loop fuel ml r EmptyString adv p text = text.
Proof.
  intros Hz. induction fuel as [|fuel IH]; intros adv p text; [reflexivity|].
  rewrite sub_loop_step.
  destruct (search_from ml r adv p text) as [[skipped s']|] eqn:Hs;
    [|reflexivity].
  apply (search_zero_width ml r Hz) in Hs. rewrite IH. simpl.
  now rewrite <- Hs.
Qed.

(** X20: patterns that can match the empty string only (the empty pattern,
    [^], [$] and their combinations) remove nothing: [_remove_lines]
    returns the text unchanged. *)
Theorem remove_lines_zero_width (config : string) (remove_lines : list regex) :
  (forall p, In p remove_lines -> zero_width p = true) ->
  _remove_lines config remove_lines = config.
Proof.
  revert config. induction remove_lines as [|p ps IH]; intros config Hz;
    [reflexivity|].
  cbn [_remove_lines]. unfold sub.
  rewrite sub_loop_zero_width by (apply Hz; now left).
  apply IH. intros q Hq. apply Hz. now right.
Qed.

Lemma remove_lines_zero_width_witness :
  _remove_lines ("hostname r1" ++ NL ++ "end")
                [pattern EmptyString; pattern "^"; pattern "$"; pattern "^$|()*"]
  = "hostname r1" ++ NL ++ "end".
Proof.
  apply (remove_lines_zero_width
           ("hostname r1" ++ NL ++ "end")
           [pattern EmptyString; pattern "^"; pattern "$"; pattern "^$|()*"]).
  intros p [<- | [<- | [<- | [<- | []]]]]; reflexivity.
Defined.


End ZeroWidth.

(* ================================================================== *)
(** * The two drivers on the same text *)
(* ================================================================== *)

Section Drivers.

Variable E : collaborators.

(** Once the transport has handed over a text, [get_config] is its first
    two calls followed by the tail. *)
Lemma get_config_is_tail (d : driver) (task : Host) (obj file : string)
      (remove_lines : list Re.regex) (substitute_lines : list substitution)
      (raw : string) :
  raw_config E d task = Some raw ->
  (d = Netmiko ->
   PyStr.contains NetmikoNautobotNornirDriver.INVALID_INPUT raw = false) ->
  let tail := sanitize_and_save E file (name task) (Some raw)
                                remove_lines substitute_lines in
  get_config_of d E task obj file remove_lines substitute_lines
  = ((get_config_head d task ++ trace tail)%list, outcome tail).
Proof.
  unfold raw_config. intros Hraw Hmark. cbv zeta.
  unfold sanitize_and_save.
  destruct d; cbn [get_config_of].
  - unfold NautobotNornirDriver.get_config.
    destruct (napalm_get E task) as [x|r0]; [discriminate|].
    destruct (failed r0); [discriminate|].
    destruct (result r0) as [[running|]|]; try discriminate.
    injection Hraw as ->.
    destruct (bind (sanitize (Some raw) remove_lines substitute_lines) _)
      as [t r].
    reflexivity.
  - unfold NetmikoNautobotNornirDriver.get_config.
    fold (run_command (platform task)).
    fold (run_command (platform task)) in Hraw.
    destruct (netmiko_send_command E task (run_command (platform task)))
      as [x|r0]; [discriminate|].
    destruct (failed r0); [discriminate|].
    injection Hraw as ->. rewrite (Hmark eq_refl). cbn [when].
    match goal with
    | |- context [bind (sanitize ?rc remove_lines substitute_lines) ?f] =>
        destruct (bind (sanitize rc remove_lines substitute_lines) f) as [t r]
    end.
    reflexivity.
Qed.

(** X22: on the same text from their transports (without the invalid-input
    marker) the two drivers do the same: same outcome, same storage calls,
    same failures logged; their logs differ in the sub-task run only. *)
Theorem drivers_agree_on_a_text
        (task : Host) (obj file : string)
        (remove_lines : list Re.regex) (substitute_lines : list substitution)
        (raw : string) :
  raw_config E Napalm task = Some raw ->
  raw_config E Netmiko task = Some raw ->
  PyStr.contains NetmikoNautobotNornirDriver.INVALID_INPUT raw = false ->
  let napalm := get_config_of Napalm E task obj file
                              remove_lines substitute_lines in
  let netmiko := get_config_of Netmiko E task obj file
                               remove_lines substitute_lines in
  outcome napalm = outcome netmiko
  /\ storage_calls (trace napalm) = storage_calls (trace netmiko)
  /\ count_log_failure (trace napalm) = count_log_failure (trace netmiko)
  /\ exists rest,
       trace napalm
       = (get_config_head Napalm task ++ rest)%list
       /\ trace netmiko = (get_config_head Netmiko task ++ rest)%list.
Proof.
  intros Hn Hk Hmark. cbv zeta.
  rewrite (get_config_is_tail Napalm task obj file remove_lines
                              substitute_lines raw Hn)
    by discriminate.
  rewrite (get_config_is_tail Netmiko task obj file remove_lines
                              substitute_lines raw Hk)
    by (intros _; exact Hmark).
  cbn [trace outcome fst snd].
  rewrite !storage_calls_app, !count_log_failure_app.
  repeat split. now eexists.
Qed.

End Drivers.

Section DriversAtSamples.

Import Samples.

Lemma drivers_agree_on_a_text_witness :
  let E := device ("user alice" ++ NL ++ "end") in
  outcome (get_config_of Napalm E r1 "obj" "/backups/r1.cfg" [] [redact_user])
  = outcome (get_config_of Netmiko E r1 "obj" "/backups/r1.cfg" []
                           [redact_user]).
Proof.
  intros E.
  exact (proj1 (drivers_agree_on_a_text
                  E r1 "obj" "/backups/r1.cfg" [] [redact_user]
                  ("user alice" ++ NL ++ "end")
                  eq_refl eq_refl eq_refl)).
Defined.

End DriversAtSamples.
